(** * SensorTile logger and MQTT gateway: the line-processing core

    Shallow embedding of
    - [Serial-Excel-Update/main.py]: class [SensorLogger]
      ([init_csv], [write_sample], [process_line], the read loop and the
      teardown of [run]);
    - [Server/main.py]: the body of the read loop of [main].

    Text is a [string] whose characters stand for code points below 256.
    Integers are Python's unbounded [int], hence [Z].  The reading of
    [time.time()] is an exact rational [Q]; the rendering of
    [datetime.now().isoformat()] is a string handed to the model by the
    caller.  [print] is not modelled. *)

From Stdlib Require Import ZArith QArith List String Ascii Bool Arith Lia Lqa.
From Stdlib Require Import DecimalString Sorted NArith.
Import ListNotations.

Local Open Scope string_scope.
Local Open Scope Z_scope.

(* ===================================================================== *)
(** ** Python text primitives used by both programs *)
(* ===================================================================== *)

Module PyText.

(** [s.split(sep)] for a one-character separator: never empty, an empty
    field between two adjacent separators and at either end. *)
Fixpoint split (sep : ascii) (s : string) : list string :=
  match s with
  | EmptyString => [EmptyString]
  | String c s' =>
      if Ascii.eqb c sep then EmptyString :: split sep s'
      else match split sep s' with
           | f :: fs => String c f :: fs
           | [] => [String c EmptyString]
           end
  end.

Definition comma : ascii := ","%char.

(** [s.startswith(p)] *)
Definition startswith (p s : string) : bool := String.prefix p s.

(** Characters [str.isspace] accepts, among code points below 256. *)
Definition isspace (c : ascii) : bool :=
  let n := nat_of_ascii c in
  ((9 <=? n) && (n <=? 13) || (28 <=? n) && (n <=? 32)
   || (n =? 133) || (n =? 160))%nat.

(** Characters [int] skips around a literal: the C locale's white space,
    and beyond ASCII the Unicode white space, which [int] first maps to a
    blank. *)
Definition int_space (c : ascii) : bool :=
  let n := nat_of_ascii c in
  ((9 <=? n) && (n <=? 13) || (n =? 32) || (n =? 133) || (n =? 160))%nat.

Fixpoint lstrip (sp : ascii -> bool) (s : string) : string :=
  match s with
  | String c s' => if sp c then lstrip sp s' else s
  | EmptyString => EmptyString
  end.

Fixpoint rstrip (sp : ascii -> bool) (s : string) : string :=
  match s with
  | EmptyString => EmptyString
  | String c s' =>
      match rstrip sp s' with
      | EmptyString => if sp c then EmptyString else String c EmptyString
      | r => String c r
      end
  end.

(** [s.strip()] *)
Definition strip (s : string) : string := rstrip isspace (lstrip isspace s).

Definition digit_value (c : ascii) : option Z :=
  let n := nat_of_ascii c in
  if ((48 <=? n) && (n <=? 57))%nat then Some (Z.of_nat n - 48) else None.

(** What the digit scanner of [int] saw last. *)
Inductive scanned := AtStart | AfterDigit | AfterUnderscore.

(** [sys.get_int_max_str_digits()], which the programs leave at its
    default: [int] raises [ValueError] on a literal with more digits. *)
Definition int_max_str_digits : Z := 4300.

(** Decimal digits, single underscores allowed between two digits; the
    scan stops at the first other character and returns the value, the
    number of digits seen (leading zeros count, underscores do not) and
    what is left. *)
Fixpoint scan_digits (prev : scanned) (acc digits : Z) (s : string)
  : option (Z * Z * string) :=
  match s with
  | EmptyString =>
      match prev with
      | AfterDigit => Some (acc, digits, EmptyString)
      | _ => None
      end
  | String c s' =>
      match digit_value c with
      | Some d => scan_digits AfterDigit (10 * acc + d) (digits + 1) s'
      | None =>
          if Ascii.eqb c "_"%char then
            match prev with
            | AfterDigit => scan_digits AfterUnderscore acc digits s'
            | _ => None
            end
          else
            match prev with
            | AfterDigit => Some (acc, digits, s)
            | _ => None
            end
      end
  end.

Definition all_int_space (s : string) : bool :=
  match lstrip int_space s with EmptyString => true | _ => false end.

Definition int_unsigned (s : string) : option Z :=
  match scan_digits AtStart 0 0 s with
  | Some (v, digits, rest) =>
      if (digits <=? int_max_str_digits) && all_int_space rest
      then Some v else None
  | None => None
  end.

(** [int(s)] on text: [Some v] for the value, [None] for [ValueError]. *)
Definition int (s : string) : option Z :=
  match lstrip int_space s with
  | String "+"%char s' => int_unsigned s'
  | String "-"%char s' => option_map Z.opp (int_unsigned s')
  | s' => int_unsigned s'
  end.

(** [[int(v) for v in l]]: the values, or [None] as soon as one field
    raises [ValueError]. *)
Fixpoint ints (l : list string) : option (list Z) :=
  match l with
  | [] => Some []
  | f :: fs =>
      match int f with
      | Some v => option_map (cons v) (ints fs)
      | None => None
      end
  end.

End PyText.

(** Letter case and substring search, for the port detection.  Upper
    case can leave the code points below 256, so its result is a list of
    code points. *)
Module PyCase.

Local Open Scope N_scope.

(** The code points of [s]. *)
Fixpoint codes (s : string) : list N :=
  match s with
  | EmptyString => []
  | String c s' => N_of_ascii c :: codes s'
  end.

(** [c.upper()] for one character. *)
Definition upper_char (c : ascii) : list N :=
  let n := N_of_ascii c in
  if (97 <=? n) && (n <=? 122) then [n - 32]
  else if (224 <=? n) && (n <=? 254) && negb (n =? 247) then [n - 32]
  else if n =? 223 then [83; 83]
  else if n =? 181 then [924]
  else if n =? 255 then [376]
  else [n].

(** [s.upper()] *)
Fixpoint upper (s : string) : list N :=
  match s with
  | EmptyString => []
  | String c s' => (upper_char c ++ upper s')%list
  end.

(** [c.lower()] for one character; it stays below 256. *)
Definition lower_char (c : ascii) : ascii :=
  let n := N_of_ascii c in
  if (65 <=? n) && (n <=? 90) then ascii_of_N (n + 32)
  else if (192 <=? n) && (n <=? 222) && negb (n =? 215)
       then ascii_of_N (n + 32)
  else c.

(** [s.lower()] *)
Fixpoint lower (s : string) : string :=
  match s with
  | EmptyString => EmptyString
  | String c s' => String (lower_char c) (lower s')
  end.

Fixpoint starts_with (needle hay : list N) : bool :=
  match needle, hay with
  | [], _ => true
  | _ :: _, [] => false
  | a :: needle', b :: hay' => (a =? b) && starts_with needle' hay'
  end.

(** [needle in hay] on text. *)
Fixpoint contains (needle hay : list N) : bool :=
  starts_with needle hay
  || match hay with
     | [] => false
     | _ :: hay' => contains needle hay'
     end.

End PyCase.

(** An entry of [serial.tools.list_ports.comports()]. *)
Record port_info := mkPort { device : string; description : string }.

(** The test both programs apply to a port: [STM] or [CDC] in the
    description in upper case, or [usbmodem] in the device name in lower
    case. *)
Definition matches_sensortile (port : port_info) : bool :=
  PyCase.contains (PyCase.codes "STM") (PyCase.upper (description port))
  || PyCase.contains (PyCase.codes "CDC") (PyCase.upper (description port))
  || PyCase.contains (PyCase.codes "usbmodem")
                     (PyCase.codes (PyCase.lower (device port))).

(** Text made of ASCII characters only. *)
Fixpoint ascii_text (s : string) : bool :=
  match s with
  | EmptyString => true
  | String c s' => (N_of_ascii c <? 128)%N && ascii_text s'
  end.

(** The same port with its description in lower case. *)
Definition lower_description (port : port_info) : port_info :=
  {| device := device port;
     description := PyCase.lower (description port) |}.

(* ===================================================================== *)
(** ** Mutable state with exceptions *)
(* ===================================================================== *)

(** The exceptions the modelled code can raise. *)
Inductive exn := ValueError | AttributeError | ZeroDivisionError.

Definition exn_eqb (a b : exn) : bool :=
  match a, b with
  | ValueError, ValueError
  | AttributeError, AttributeError
  | ZeroDivisionError, ZeroDivisionError => true
  | _, _ => false
  end.

Inductive outcome (A : Type) := Return (a : A) | Raise (e : exn).
Arguments Return {A} a.
Arguments Raise {A} e.

(** A computation over the object state [S]: attribute updates made
    before an exception is raised stay in place. *)
Definition M (S A : Type) : Type := S -> outcome A * S.

Definition ret {S A} (a : A) : M S A := fun st => (Return a, st).

Definition bind {S A B} (c : M S A) (k : A -> M S B) : M S B :=
  fun st =>
    match c st with
    | (Return a, st') => k a st'
    | (Raise e, st') => (Raise e, st')
    end.

Definition raise {S A} (e : exn) : M S A := fun st => (Raise e, st).

(** [try: body / except e: handler] *)
Definition try_except {S A} (body : M S A) (e : exn) (handler : M S A)
  : M S A :=
  fun st =>
    match body st with
    | (Raise e', st') =>
        if exn_eqb e' e then handler st' else (Raise e', st')
    | r => r
    end.

(** [try: body / finally: cleanup] *)
Definition try_finally {S A} (body : M S A) (cleanup : M S unit) : M S A :=
  fun st =>
    match body st with
    | (o, st') =>
        match cleanup st' with
        | (Return _, st'') => (o, st'')
        | (Raise e, st'') => (Raise e, st'')
        end
    end.

Definition get {S} : M S S := fun st => (Return st, st).
Definition modify {S} (f : S -> S) : M S unit := fun st => (Return tt, f st).

(** [int(s)] inside a computation. *)
Definition int_ {S} (s : string) : M S Z :=
  match PyText.int s with Some v => ret v | None => raise ValueError end.

Definition ints_ {S} (l : list string) : M S (list Z) :=
  match PyText.ints l with Some v => ret v | None => raise ValueError end.

Declare Scope py_scope.
Delimit Scope py_scope with py.
Notation "x <- c ;; k" := (bind c (fun x => k))
  (at level 61, c at next level, right associativity) : py_scope.
Notation "c ;; k" := (bind c (fun _ => k))
  (at level 61, right associativity) : py_scope.
Local Open Scope py_scope.

Definition exec {S A} (c : M S A) (st : S) : S := snd (c st).
Definition result {S A} (c : M S A) (st : S) : outcome A := fst (c st).

(** What one [readline] of the serial port gives the loop. *)
Inductive serial_read :=
| ReadTimeout                    (* [b''] after the one-second timeout *)
| ReadUndecodable                (* bytes that are not UTF-8 *)
| ReadText (text : string).      (* the decoded line, not yet stripped *)

(* ===================================================================== *)
(** ** Serial-Excel-Update/main.py *)
(* ===================================================================== *)

Module Logger.

Inductive Mode := raw | reduced.

Definition Mode_eqb (a b : Mode) : bool :=
  match a, b with raw, raw | reduced, reduced => true | _, _ => false end.

(** A value handed to [csv.writer.writerow]. *)
Inductive cell := CInt (n : Z) | CStr (s : string).
Definition row := list cell.

(** Calls on the CSV file, oldest first. *)
Inductive io_event :=
| EvOpen                         (* [open(CSV_FILENAME, 'w', newline='')] *)
| EvWriteRow (r : row)           (* [csv_writer.writerow(r)] *)
| EvFlush                        (* [csv_file.flush()] *)
| EvClose.                       (* [csv_file.close()] *)

(** [self.csv_file] (and [self.csv_writer], set with it). *)
Inductive handle := NoFile | OpenFile | ClosedFile.

(** The attributes of the logger that the methods modelled here read or
    write.  [serial_port] and [stop_event], which only [run] touches (it
    opens and closes the one and sets the other), are not among them. *)
Record SensorLogger := mkSensorLogger {
  csv_file : handle;
  running : bool;
  sample_count : Z;
  mode : option Mode;
  csv_initialized : bool;
  io_log : list io_event
}.

(** [SensorLogger.__init__] *)
Definition init : SensorLogger :=
  {| csv_file := NoFile; running := false; sample_count := 0;
     mode := None; csv_initialized := false; io_log := [] |}.

Definition emit (e : io_event) : M SensorLogger unit :=
  modify (fun st =>
    {| csv_file := csv_file st; running := running st;
       sample_count := sample_count st; mode := mode st;
       csv_initialized := csv_initialized st;
       io_log := (io_log st ++ [e])%list |}).

Definition set_csv_file (h : handle) : M SensorLogger unit :=
  modify (fun st =>
    {| csv_file := h; running := running st;
       sample_count := sample_count st; mode := mode st;
       csv_initialized := csv_initialized st; io_log := io_log st |}).

Definition set_running (b : bool) : M SensorLogger unit :=
  modify (fun st =>
    {| csv_file := csv_file st; running := b;
       sample_count := sample_count st; mode := mode st;
       csv_initialized := csv_initialized st; io_log := io_log st |}).

Definition set_sample_count (n : Z) : M SensorLogger unit :=
  modify (fun st =>
    {| csv_file := csv_file st; running := running st;
       sample_count := n; mode := mode st;
       csv_initialized := csv_initialized st; io_log := io_log st |}).

Definition set_mode (m : Mode) : M SensorLogger unit :=
  modify (fun st =>
    {| csv_file := csv_file st; running := running st;
       sample_count := sample_count st; mode := Some m;
       csv_initialized := csv_initialized st; io_log := io_log st |}).

Definition set_csv_initialized (b : bool) : M SensorLogger unit :=
  modify (fun st =>
    {| csv_file := csv_file st; running := running st;
       sample_count := sample_count st; mode := mode st;
       csv_initialized := b; io_log := io_log st |}).

(** [str(n)] for a natural number. *)
Definition str_of_nat (n : nat) : string :=
  NilZero.string_of_uint (Nat.to_uint n).

(** The header row [init_csv] builds for each mode. *)
Definition headers (m : Mode) : row :=
  match m with
  | raw =>
      map CStr (["x"; "y"; "z"]
                ++ map (fun i => ("m" ++ str_of_nat (i + 1)%nat)%string)
                       (seq 0 16)
                ++ ["timestamp"])%list
  | reduced =>
      map CStr ["x"; "y"; "z"; "mic_peak"; "mic_avg"; "timestamp"]
  end.

(** Writing through a file object: nothing to write to before [open],
    [ValueError] (I/O operation on closed file) after [close]. *)
Definition file_call (e : io_event) : M SensorLogger unit :=
  st <- get ;;
  match csv_file st with
  | OpenFile => emit e
  | NoFile => raise AttributeError
  | ClosedFile => raise ValueError
  end.

(** [SensorLogger.init_csv]; [open] is taken to succeed. *)
Definition init_csv (m : Mode) : M SensorLogger unit :=
  st <- get ;;
  if csv_initialized st then ret tt
  else
    emit EvOpen ;;
    set_csv_file OpenFile ;;
    file_call (EvWriteRow (headers m)) ;;
    file_call EvFlush ;;
    set_csv_initialized true.

(** [SensorLogger.write_sample] *)
Definition write_sample (r : row) : M SensorLogger unit :=
  file_call (EvWriteRow r) ;;
  st <- get ;;
  set_sample_count (sample_count st + 1) ;;
  st <- get ;;
  if sample_count st mod 500 =? 0 then file_call EvFlush else ret tt.

(** [while len(mic_samples) < 16: mic_samples.append(0)]; the list has
    at most 16 entries on entry, so 16 turns are enough. *)
Fixpoint pad_loop (turns : nat) (mic_samples : list Z) : list Z :=
  match turns with
  | O => mic_samples
  | S k =>
      if (List.length mic_samples <? 16)%nat
      then pad_loop k (mic_samples ++ [0])%list
      else mic_samples
  end.

Definition mode_is (m : Mode) (cur : option Mode) : bool :=
  match cur with Some c => Mode_eqb c m | None => false end.

(** [SensorLogger.process_line]; [timestamp] is what
    [datetime.now().isoformat()] returns during the call. *)
Definition process_line (timestamp line : string) : M SensorLogger unit :=
  if PyText.startswith "#" line then ret tt
  else
    let parts := PyText.split PyText.comma line in
    if (List.length parts <? 5)%nat then ret tt
    else
      try_except
        (x <- int_ (nth 0 parts "") ;;
         y <- int_ (nth 1 parts "") ;;
         z <- int_ (nth 2 parts "") ;;
         let mic_parts := skipn 3 parts in
         if (List.length mic_parts =? 2)%nat then
           (st <- get ;;
            if mode_is reduced (mode st) then ret tt
            else set_mode reduced ;; init_csv reduced) ;;
           peak <- int_ (nth 0 mic_parts "") ;;
           avg <- int_ (nth 1 mic_parts "") ;;
           write_sample
             [CInt x; CInt y; CInt z; CInt peak; CInt avg; CStr timestamp]
         else if (8 <=? List.length mic_parts)%nat then
           (st <- get ;;
            if mode_is raw (mode st) then ret tt
            else set_mode raw ;; init_csv raw) ;;
           mic_samples <- ints_ (firstn 16 mic_parts) ;;
           let mic_samples := pad_loop 16 mic_samples in
           write_sample
             ([CInt x; CInt y; CInt z] ++ map CInt mic_samples
              ++ [CStr timestamp])%list
         else ret tt)
        ValueError
        (ret tt).

(** One turn of the [while True] loop of [run]. *)
Definition loop_body (timestamp : string) (r : serial_read)
  : M SensorLogger unit :=
  match r with
  | ReadTimeout => ret tt
  | ReadUndecodable => ret tt
  | ReadText raw_text =>
      let text := PyText.strip raw_text in
      if String.eqb text "" then ret tt else process_line timestamp text
  end.

(** The loop over the reads that arrive before the interrupt, each with
    the time stamp of its turn. *)
Fixpoint read_loop (reads : list (string * serial_read))
  : M SensorLogger unit :=
  match reads with
  | [] => ret tt
  | (timestamp, r) :: rest => loop_body timestamp r ;; read_loop rest
  end.

(** The [finally] block of [run], as far as the logger's own attributes
    and the CSV file go; closing the file writes out what is buffered. *)
Definition teardown : M SensorLogger unit :=
  set_running false ;;
  st <- get ;;
  match csv_file st with
  | NoFile => ret tt
  | _ => emit EvClose ;; set_csv_file ClosedFile
  end.

(** [SensorLogger.run] from the opening of the port to the interrupt.
    The e-mail thread started here only reads the attributes. *)
Definition run (reads : list (string * serial_read)) : M SensorLogger unit :=
  set_running true ;;
  try_finally (read_loop reads) teardown.

(** Feeding lines straight to [process_line], one time stamp each. *)
Fixpoint process_lines (lines : list (string * string))
  : M SensorLogger unit :=
  match lines with
  | [] => ret tt
  | (timestamp, line) :: rest =>
      process_line timestamp line ;; process_lines rest
  end.

(** Rows of the log, split by what their first cell is: a header starts
    with a column name, a sample with its x value. *)
Definition is_sample_row (e : io_event) : bool :=
  match e with EvWriteRow (CInt _ :: _) => true | _ => false end.

Definition is_header_row (e : io_event) : bool :=
  match e with EvWriteRow (CStr _ :: _) => true | _ => false end.

Definition is_flush (e : io_event) : bool :=
  match e with EvFlush => true | _ => false end.

Definition sample_rows (log : list io_event) : list io_event :=
  filter is_sample_row log.

Definition header_writes (log : list io_event) : nat :=
  List.length (filter is_header_row log).

Definition flushes (log : list io_event) : nat :=
  List.length (filter is_flush log).

(** The attributes agree the way the methods leave them before the
    teardown: a mode is set only together with the header, and the header
    is written only into the open file. *)
Definition consistent (st : SensorLogger) : bool :=
  implb (match mode st with Some _ => true | None => false end)
        (csv_initialized st)
  && implb (csv_initialized st)
           (match csv_file st with OpenFile => true | _ => false end).

(** The state after the mode check of a branch of [process_line] for
    shape [m]: the mode is set, and the header is there. *)
Definition committed (m : Mode) (st : SensorLogger) : SensorLogger :=
  {| csv_file := OpenFile;
     running := running st;
     sample_count := sample_count st;
     mode := Some m;
     csv_initialized := true;
     io_log :=
       (io_log st
        ++ (if csv_initialized st then []
            else [EvOpen; EvWriteRow (headers m); EvFlush]))%list
  |}.

(** The state after a line of shape [m] was accepted and its row [r]
    written: what the mode check, [init_csv] and [write_sample] do
    together. *)
Definition accepted (m : Mode) (r : row) (st : SensorLogger) : SensorLogger :=
  {| csv_file := OpenFile;
     running := running st;
     sample_count := sample_count st + 1;
     mode := Some m;
     csv_initialized := true;
     io_log :=
       (io_log st
        ++ (if csv_initialized st then []
            else [EvOpen; EvWriteRow (headers m); EvFlush])
        ++ EvWriteRow r
           :: (if (sample_count st + 1) mod 500 =? 0 then [EvFlush] else []))%list
  |}.

(** The file calls of successive [write_sample] calls with [rows], the
    first made when [sample_count] is [count]. *)
Fixpoint written (count : Z) (rows : list row) : list io_event :=
  match rows with
  | [] => []
  | r :: rest =>
      (EvWriteRow r
       :: (if (count + 1) mod 500 =? 0 then [EvFlush] else [])
       ++ written (count + 1) rest)%list
  end.

(** A client of the store: calls of [init_csv] and [write_sample] in any
    order. *)
Inductive store_call :=
| Call_init_csv (m : Mode)
| Call_write_sample (r : row).

Definition do_call (c : store_call) : M SensorLogger unit :=
  match c with
  | Call_init_csv m => init_csv m
  | Call_write_sample r => write_sample r
  end.

Fixpoint do_calls (cs : list store_call) : M SensorLogger unit :=
  match cs with
  | [] => ret tt
  | c :: rest => do_call c ;; do_calls rest
  end.

(** The rows [process_line] hands to [write_sample] start with x. *)
Definition writes_sample_rows (c : store_call) : bool :=
  match c with
  | Call_init_csv _ => true
  | Call_write_sample r => is_sample_row (EvWriteRow r)
  end.

Definition appends (cs : list store_call) : nat :=
  List.length
    (filter (fun c => match c with Call_write_sample _ => true | _ => false end)
            cs).



(** The row written for integer fields [vs] of a line in mode [m]. *)
Definition sample_row (m : Mode) (vs : list Z) (timestamp : string) : row :=
  match m with
  | reduced => map CInt vs ++ [CStr timestamp]
  | raw =>
      map CInt (firstn 3 vs)
      ++ map CInt (firstn 16 (skipn 3 vs)
                   ++ repeat 0 (16 - List.length (firstn 16 (skipn 3 vs))))
      ++ [CStr timestamp]
  end%list.

(** What holds of the logger between two lines of a session: the
    attributes are consistent, and the header has been written once if
    [csv_initialized] says so and not at all otherwise. *)
Definition session_inv (st : SensorLogger) : Prop :=
  consistent st = true /\
  header_writes (io_log st) = if csv_initialized st then 1%nat else 0%nat.


(** [SensorLogger.find_sensortile] on the ports the system lists. *)
Fixpoint find_sensortile (ports : list port_info) : option string :=
  match ports with
  | [] => None
  | port :: rest =>
      let desc := PyCase.upper (description port) in
      if PyCase.contains (PyCase.codes "STM") desc
         || PyCase.contains (PyCase.codes "CDC") desc
         || PyCase.contains (PyCase.codes "usbmodem")
                            (PyCase.codes (PyCase.lower (device port)))
      then Some (device port)
      else find_sensortile rest
  end.

(** The number of events after the last flush: what the file object may
    still hold in its buffer. *)
Definition unflushed (log : list io_event) : nat :=
  fold_left (fun n e => if is_flush e then O else S n) log O.

(** The calls [init_csv] makes on the file. *)
Definition header_block (m : Mode) : list io_event :=
  [EvOpen; EvWriteRow (headers m); EvFlush].

(** The shape of the logger between two turns of the read loop: nothing
    has happened to the file yet, or the file is open and holds a header
    and the rows of [sample_count] calls of [write_sample]. *)
Definition session_shape (st : SensorLogger) : Prop :=
  (csv_initialized st = false /\ io_log st = [] /\ sample_count st = 0 /\
   mode st = None /\ csv_file st = NoFile)
  \/
  (csv_initialized st = true /\ csv_file st = OpenFile /\
   (exists m, mode st = Some m) /\
   exists m0 rows,
     io_log st = (header_block m0 ++ written 0 rows)%list /\
     sample_count st = Z.of_nat (List.length rows) /\
     forallb (fun r => is_sample_row (EvWriteRow r)) rows = true).

(** A read on which a turn of the loop does nothing because of its form
    alone: a timeout, bytes that do not decode, a blank line, a comment,
    a line whose field count is neither five nor eleven or more. *)
Definition is_idle_read (tr : string * serial_read) : bool :=
  match snd tr with
  | ReadTimeout | ReadUndecodable => true
  | ReadText raw_text =>
      let text := PyText.strip raw_text in
      let k := List.length (PyText.split PyText.comma text) in
      String.eqb text "" || PyText.startswith "#" text
      || (negb (k =? 5) && (k <=? 10))%nat
  end.

(** The constants [send_email] reads. *)
Record EmailConfig := mkEmailConfig {
  EMAIL_ENABLED : bool;
  SENDER_EMAIL : string;
  RECIPIENT_EMAILS : list string;
  CSV_FILENAME : string
}.

(** What a message carries of the logger: the sender, the recipients
    that are joined into the [To] header, the mode, sample and file lines
    of the body, and whether the CSV file is attached. *)
Record report := mkReport {
  msg_from : string;
  msg_to : list string;
  body_mode : string;
  body_samples : Z;
  body_file : string;
  attached : bool
}.

Inductive email_outcome :=
| NotAttempted                   (* returned before the [try] *)
| Sent (r : report)              (* [server.send_message(msg)] went through *)
| Failed.                        (* an exception, caught and printed *)

(** [self.mode.upper()] for a mode that is set. *)
Definition mode_upper (m : Mode) : string :=
  match m with raw => "RAW" | reduced => "REDUCED" end.

(** [SensorLogger.send_email].  The method runs in the scheduler thread
    while the read loop goes on, so it is given the values it reads
    from the attributes, each at its own moment: [mode_now] and then
    [count_now] when the body is built.  [csv_exists] is what
    [os.path.exists] answers and [transport_ok] whether reading the file
    and the SMTP exchange go through. *)
Definition send_email (cfg : EmailConfig) (csv_exists transport_ok : bool)
    (mode_now : option Mode) (count_now : Z) : email_outcome :=
  if negb (EMAIL_ENABLED cfg)
     || match RECIPIENT_EMAILS cfg with [] => true | _ => false end
  then NotAttempted
  else
    match mode_now with
    | None => Failed
    | Some m =>
        if transport_ok then
          Sent {| msg_from := SENDER_EMAIL cfg;
                  msg_to := RECIPIENT_EMAILS cfg;
                  body_mode := mode_upper m;
                  body_samples := count_now;
                  body_file := CSV_FILENAME cfg;
                  attached := csv_exists |}
        else Failed
    end.

(** One wake-up of [email_scheduler] that was not a stop; [running_now]
    is what it reads from [self.running]. *)
Definition email_tick (cfg : EmailConfig) (csv_exists transport_ok : bool)
    (running_now : bool) (mode_now : option Mode) (count_now : Z)
  : email_outcome :=
  if running_now then send_email cfg csv_exists transport_ok mode_now count_now
  else NotAttempted.

End Logger.

(* ===================================================================== *)
(** ** Server/main.py *)
(* ===================================================================== *)

Module Gateway.

(** The two rate-limiting constants of the configuration block. *)
Record Config := mkConfig {
  ACCEL_PUBLISH_INTERVAL : Q;
  MIC_PUBLISH_EVERY_N : Z
}.

(** The values the file ships with: 0.01 s and every batch. *)
Definition config : Config :=
  {| ACCEL_PUBLISH_INTERVAL := 1 # 100; MIC_PUBLISH_EVERY_N := 1 |}.

(** The dictionary [stats], which always has these three keys. *)
Record Stats := mkStats { accel : Z; mic : Z; errors : Z }.

(** Calls of [client.publish] inside the loop.  Of the payload, the
    entries read from the line and from the counters are kept; ["t"] is
    the float rendering of the counter and ["ts"] the wall clock. *)
Inductive publication :=
| PubAccel (x y z : Z) (idx : Z)         (* on [TOPIC_ACCEL] *)
| PubMic (samples : list Z) (batch : Z). (* on [TOPIC_MIC] *)

(** The local variables of [main] that the loop updates. *)
Record Gateway := mkGateway {
  accel_idx : Z;
  mic_batch : Z;
  last_accel_publish : Q;
  stats : Stats;
  published : list publication
}.

(** Their values when the loop is entered. *)
Definition init : Gateway :=
  {| accel_idx := 0; mic_batch := 0; last_accel_publish := 0;
     stats := {| accel := 0; mic := 0; errors := 0 |};
     published := [] |}.

Definition set_accel_idx (n : Z) : M Gateway unit :=
  modify (fun st =>
    {| accel_idx := n; mic_batch := mic_batch st;
       last_accel_publish := last_accel_publish st;
       stats := stats st; published := published st |}).

Definition set_mic_batch (n : Z) : M Gateway unit :=
  modify (fun st =>
    {| accel_idx := accel_idx st; mic_batch := n;
       last_accel_publish := last_accel_publish st;
       stats := stats st; published := published st |}).

Definition set_last_accel_publish (t : Q) : M Gateway unit :=
  modify (fun st =>
    {| accel_idx := accel_idx st; mic_batch := mic_batch st;
       last_accel_publish := t;
       stats := stats st; published := published st |}).

Definition set_stats (f : Stats -> Stats) : M Gateway unit :=
  modify (fun st =>
    {| accel_idx := accel_idx st; mic_batch := mic_batch st;
       last_accel_publish := last_accel_publish st;
       stats := f (stats st); published := published st |}).

Definition publish (p : publication) : M Gateway unit :=
  modify (fun st =>
    {| accel_idx := accel_idx st; mic_batch := mic_batch st;
       last_accel_publish := last_accel_publish st;
       stats := stats st; published := (published st ++ [p])%list |}).

Definition bump_accel (s : Stats) : Stats :=
  {| accel := accel s + 1; mic := mic s; errors := errors s |}.
Definition bump_mic (s : Stats) : Stats :=
  {| accel := accel s; mic := mic s + 1; errors := errors s |}.
Definition bump_errors (s : Stats) : Stats :=
  {| accel := accel s; mic := mic s; errors := errors s + 1 |}.

(** [a % b] on integers. *)
Definition py_mod (a b : Z) : M Gateway Z :=
  if b =? 0 then raise ZeroDivisionError else ret (a mod b).

(** The loop body from [parts = line.split(',')] on, for a stripped and
    non-empty [line]; [now] is what [time.time()] returns in this turn. *)
Definition main_line (cfg : Config) (now : Q) (line : string)
  : M Gateway unit :=
  let parts := PyText.split PyText.comma line in
  if String.eqb (nth 0 parts "") "A" && (List.length parts =? 4)%nat then
    try_except
      (x <- int_ (nth 1 parts "") ;;
       y <- int_ (nth 2 parts "") ;;
       z <- int_ (nth 3 parts "") ;;
       st <- get ;;
       let idx := accel_idx st in
       set_accel_idx (idx + 1) ;;
       st <- get ;;
       if Qle_bool (ACCEL_PUBLISH_INTERVAL cfg) (now - last_accel_publish st)
       then
         publish (PubAccel x y z idx) ;;
         set_last_accel_publish now ;;
         set_stats bump_accel
       else ret tt)
      ValueError
      (set_stats bump_errors)
  else if String.eqb (nth 0 parts "") "M" && (1 <? List.length parts)%nat then
    try_except
      (samples <- ints_ (skipn 1 parts) ;;
       st <- get ;;
       r <- py_mod (mic_batch st) (MIC_PUBLISH_EVERY_N cfg) ;;
       (if r =? 0 then
          publish (PubMic samples (mic_batch st)) ;;
          set_stats bump_mic
        else ret tt) ;;
       st <- get ;;
       set_mic_batch (mic_batch st + 1))
      ValueError
      (set_stats bump_errors)
  else ret tt.

(** One turn of the [while True] loop of [main]. *)
Definition main_loop_body (cfg : Config) (now : Q) (r : serial_read)
  : M Gateway unit :=
  match r with
  | ReadTimeout => ret tt
  | ReadUndecodable => set_stats bump_errors
  | ReadText raw_text =>
      let line := PyText.strip raw_text in
      if String.eqb line "" then ret tt else main_line cfg now line
  end.

(** The loop over the reads that arrive before the interrupt, each with
    the clock reading of its turn. *)
Fixpoint main_loop (cfg : Config) (reads : list (Q * serial_read))
  : M Gateway unit :=
  match reads with
  | [] => ret tt
  | (now, r) :: rest => main_loop_body cfg now r ;; main_loop cfg rest
  end.

(** The clock readings of the turns that published an accelerometer
    sample, in a run from [st]; a run ends at the first exception. *)
Fixpoint accel_publish_instants (cfg : Config)
    (reads : list (Q * serial_read)) (st : Gateway) : list Q :=
  match reads with
  | [] => []
  | (now, r) :: rest =>
      let (o, st') := main_loop_body cfg now r st in
      ((if accel (stats st') =? accel (stats st) + 1 then [now] else [])
       ++ match o with
          | Return _ => accel_publish_instants cfg rest st'
          | Raise _ => []
          end)%list
  end.

(** Each clock reading is at least the one before it. *)
Fixpoint monotonic (clock : list Q) : bool :=
  match clock with
  | a :: ((b :: _) as rest) => Qle_bool a b && monotonic rest
  | _ => true
  end.

(** The state after a line was counted in [stats["errors"]]. *)
Definition errored (st : Gateway) : Gateway :=
  {| accel_idx := accel_idx st; mic_batch := mic_batch st;
     last_accel_publish := last_accel_publish st;
     stats := bump_errors (stats st); published := published st |}.

(** The state after an accelerometer line with values [x], [y], [z] was
    taken at clock reading [now]. *)
Definition accel_taken (cfg : Config) (now : Q) (x y z : Z) (st : Gateway)
  : Gateway :=
  if Qle_bool (ACCEL_PUBLISH_INTERVAL cfg) (now - last_accel_publish st)
  then
    {| accel_idx := accel_idx st + 1; mic_batch := mic_batch st;
       last_accel_publish := now;
       stats := bump_accel (stats st);
       published := (published st ++ [PubAccel x y z (accel_idx st)])%list |}
  else
    {| accel_idx := accel_idx st + 1; mic_batch := mic_batch st;
       last_accel_publish := last_accel_publish st;
       stats := stats st; published := published st |}.

(** The state after a microphone line with values [samples] was taken. *)
Definition mic_taken (cfg : Config) (samples : list Z) (st : Gateway)
  : Gateway :=
  if mic_batch st mod MIC_PUBLISH_EVERY_N cfg =? 0
  then
    {| accel_idx := accel_idx st; mic_batch := mic_batch st + 1;
       last_accel_publish := last_accel_publish st;
       stats := bump_mic (stats st);
       published := (published st ++ [PubMic samples (mic_batch st)])%list |}
  else
    {| accel_idx := accel_idx st; mic_batch := mic_batch st + 1;
       last_accel_publish := last_accel_publish st;
       stats := stats st; published := published st |}.

(** A read that is a microphone line: tag [M], then one value or more,
    all integers. *)
Definition is_mic_read (tr : Q * serial_read) : bool :=
  match snd tr with
  | ReadText raw_text =>
      match PyText.split PyText.comma (PyText.strip raw_text) with
      | tag :: f :: fs =>
          String.eqb tag "M"
          && match PyText.ints (f :: fs) with Some _ => true | None => false end
      | _ => false
      end
  | _ => false
  end.

(** The batch numbers a run of [n] microphone lines goes through. *)
Definition batch_numbers (first : Z) (n : nat) : list Z :=
  map (fun i => first + Z.of_nat i) (seq 0 n).

(** The batch numbers published on [TOPIC_MIC]. *)
Definition mic_batches (log : list publication) : list Z :=
  flat_map (fun p => match p with PubMic _ b => [b] | _ => [] end) log.

(** [find_sensortile_port] on the ports the system lists. *)
Fixpoint find_sensortile_port (ports : list port_info) : option string :=
  match ports with
  | [] => None
  | port :: rest =>
      if PyCase.contains (PyCase.codes "STM")
                         (PyCase.upper (description port))
         || PyCase.contains (PyCase.codes "CDC")
                            (PyCase.upper (description port))
         || PyCase.contains (PyCase.codes "usbmodem")
                            (PyCase.codes (PyCase.lower (device port)))
      then Some (device port)
      else find_sensortile_port rest
  end.

(** The sample numbers published on [TOPIC_ACCEL]. *)
Definition accel_indices (log : list publication) : list Z :=
  flat_map (fun p => match p with PubAccel _ _ _ i => [i] | _ => [] end) log.

(** A read that is an accelerometer line: tag [A], then exactly three
    integers. *)
Definition is_accel_read (tr : Q * serial_read) : bool :=
  match snd tr with
  | ReadText raw_text =>
      match PyText.split PyText.comma (PyText.strip raw_text) with
      | [tag; a; b; c] =>
          String.eqb tag "A"
          && match PyText.ints [a; b; c] with Some _ => true | None => false end
      | _ => false
      end
  | _ => false
  end.

(** A read the loop counts in [stats["errors"]]: bytes that do not
    decode, an [A] line of four fields or an [M] line of two or more
    with a field that is no integer. *)
Definition is_error_read (tr : Q * serial_read) : bool :=
  match snd tr with
  | ReadTimeout => false
  | ReadUndecodable => true
  | ReadText raw_text =>
      match PyText.split PyText.comma (PyText.strip raw_text) with
      | tag :: f :: fs =>
          ((String.eqb tag "A" && (List.length fs =? 2)%nat)
           || String.eqb tag "M")
          && match PyText.ints (f :: fs) with Some _ => false | None => true end
      | _ => false
      end
  end.

(** What holds of the loop variables after any number of turns. *)
Definition counters_agree (st : Gateway) : Prop :=
  accel (stats st) = Z.of_nat (List.length (accel_indices (published st))) /\
  mic (stats st) = Z.of_nat (List.length (mic_batches (published st))) /\
  Forall (fun i => 0 <= i < accel_idx st) (accel_indices (published st)) /\
  Forall (fun b => 0 <= b < mic_batch st) (mic_batches (published st)) /\
  StronglySorted Z.lt (accel_indices (published st)) /\
  StronglySorted Z.lt (mic_batches (published st)) /\
  accel (stats st) <= accel_idx st /\ mic (stats st) <= mic_batch st /\
  0 <= errors (stats st).

End Gateway.

(* ===================================================================== *)
(** ** Facts about the text primitives *)
(* ===================================================================== *)

Section TextFacts.

Import PyText.

Lemma split_nonempty sep s : split sep s <> [].
Proof.
  destruct s as [|c s]; simpl; [discriminate|].
  destruct (Ascii.eqb c sep); [discriminate|].
  destruct (split sep s); discriminate.
Qed.

(** A field that starts with the comment marker is no integer. *)
Lemma int_hash s : int (String "#" s) = None.
Proof. reflexivity. Qed.

(** The first field of a comment line starts with the marker. *)
Lemma split_comment line :
  startswith "#" line = true ->
  exists f fs, split comma line = String "#" f :: fs.
Proof.
  unfold startswith. destruct line as [|c s]; cbn [prefix]; [discriminate|].
  destruct (ascii_dec "#" c) as [<-|]; [|discriminate]. intros _.
  cbn. destruct (split comma s) as [|f fs] eqn:E.
  - now apply split_nonempty in E.
  - now exists f, fs.
Qed.

(** A line whose first field is an integer is not a comment. *)
Lemma int_head_not_comment line f fs v :
  split comma line = f :: fs -> int f = Some v ->
  startswith "#" line = false.
Proof.
  intros Hs Hi. destruct (startswith "#" line) eqn:E; [|reflexivity].
  destruct (split_comment _ E) as (g & gs & Hg).
  rewrite Hg in Hs. injection Hs as <- _. now rewrite int_hash in Hi.
Qed.

Lemma ints_cons f fs vs :
  ints (f :: fs) = Some vs ->
  exists v vs', vs = v :: vs' /\ int f = Some v /\ ints fs = Some vs'.
Proof.
  simpl. destruct (int f) as [v|]; [|discriminate].
  destruct (ints fs) as [vs'|]; simpl; [|discriminate].
  intros [= <-]. now exists v, vs'.
Qed.

Lemma ints_length fs : forall vs,
  ints fs = Some vs -> List.length vs = List.length fs.
Proof.
  induction fs as [|f fs IH]; intros vs H.
  - now injection H as <-.
  - apply ints_cons in H as (v & vs' & -> & _ & H).
    simpl. now rewrite (IH _ H).
Qed.

Lemma ints_app fs gs :
  ints (fs ++ gs) =
  match ints fs, ints gs with
  | Some vs, Some ws => Some (vs ++ ws)%list
  | _, _ => None
  end.
Proof.
  induction fs as [|f fs IH]; simpl.
  - now destruct (ints gs).
  - destruct (int f); [|reflexivity]. rewrite IH.
    destruct (ints fs), (ints gs); reflexivity.
Qed.

Lemma ints_firstn n fs : forall vs,
  ints fs = Some vs -> ints (firstn n fs) = Some (firstn n vs).
Proof.
  revert fs. induction n as [|n IH]; intros fs vs H; [reflexivity|].
  destruct fs as [|f fs].
  - now injection H as <-.
  - apply ints_cons in H as (v & vs' & -> & Hv & H).
    simpl. now rewrite Hv, (IH _ _ H).
Qed.

End TextFacts.

(* ===================================================================== *)
(** ** Facts about the logger *)
(* ===================================================================== *)

Section LoggerFacts.

Import PyText Logger.

Ltac unfold_m :=
  unfold file_call;
  unfold emit, set_csv_file, set_running, set_sample_count, set_mode,
         set_csv_initialized, int_, ints_;
  unfold bind, ret, get, modify, raise, try_except.

Lemma init_csv_done m st :
  csv_initialized st = true -> init_csv m st = (Return tt, st).
Proof. intros H. unfold init_csv. unfold_m. now rewrite H. Qed.

Lemma init_csv_fresh m st :
  csv_initialized st = false ->
  init_csv m st =
  (Return tt,
   {| csv_file := OpenFile; running := running st;
      sample_count := sample_count st; mode := mode st;
      csv_initialized := true;
      io_log := (io_log st ++ [EvOpen; EvWriteRow (headers m); EvFlush])%list |}).
Proof.
  intros H. unfold init_csv. unfold_m. rewrite H. cbn.
  now rewrite <- !app_assoc.
Qed.

Lemma write_sample_open r st :
  csv_file st = OpenFile ->
  write_sample r st =
  (Return tt,
   {| csv_file := OpenFile; running := running st;
      sample_count := sample_count st + 1; mode := mode st;
      csv_initialized := csv_initialized st;
      io_log :=
        (io_log st ++ EvWriteRow r
           :: (if (sample_count st + 1) mod 500 =? 0 then [EvFlush] else []))%list
   |}).
Proof.
  intros H. unfold write_sample. unfold_m. cbn. rewrite H. cbn. rewrite H.
  destruct ((sample_count st + 1) mod 500 =? 0); unfold_m; cbn.
  - now rewrite <- app_assoc.
  - reflexivity.
Qed.

Lemma pad_loop_spec turns : forall l,
  (16 - List.length l <= turns)%nat ->
  pad_loop turns l = (l ++ repeat 0 (16 - List.length l))%list.
Proof.
  induction turns as [|k IH]; intros l H; cbn [pad_loop].
  - replace (16 - List.length l)%nat with 0%nat by lia.
    cbn [repeat]. now rewrite app_nil_r.
  - destruct (Nat.ltb_spec (List.length l) 16) as [Hlt|Hge].
    + rewrite IH by (rewrite length_app; cbn [List.length]; lia).
      rewrite length_app. cbn [List.length].
      replace (16 - List.length l)%nat
        with (S (16 - (List.length l + 1)))%nat by lia.
      cbn [repeat]. now rewrite <- app_assoc.
    + replace (16 - List.length l)%nat with 0%nat by lia.
      cbn [repeat]. now rewrite app_nil_r.
Qed.

(** The mode check in front of either branch of [process_line]. *)
Lemma mode_check_consistent m st :
  consistent st = true ->
  (st' <- get ;;
   if mode_is m (mode st') then ret tt
   else set_mode m ;; init_csv m) st =
  (Return tt, committed m st).
Proof.
  unfold consistent, committed. intros H. apply andb_prop in H as [H1 H2].
  destruct st as [f rn n md ini lg]; cbn in *.
  destruct md as [c|]; cbn [mode_is].
  - cbn in H1. subst ini. destruct f; try discriminate.
    destruct (Mode_eqb c m) eqn:E.
    + destruct c, m; try discriminate; cbv [ret]; now rewrite app_nil_r.
    + cbv [bind set_mode modify].
      rewrite init_csv_done by reflexivity. now rewrite app_nil_r.
  - cbv [bind set_mode modify]. destruct ini.
    + destruct f; try discriminate.
      rewrite init_csv_done by reflexivity. now rewrite app_nil_r.
    + now rewrite init_csv_fresh by reflexivity.
Qed.

Lemma bind_run {S A B} (c : M S A) (k : A -> M S B) st :
  bind c k st =
  match c st with
  | (Return a, st') => k a st'
  | (Raise e, st') => (Raise e, st')
  end.
Proof. reflexivity. Qed.

Lemma bind_ret {S A B} (a : A) (k : A -> M S B) : bind (ret a) k = k a.
Proof. reflexivity. Qed.

Lemma ints_five fs x y z p q :
  ints fs = Some [x; y; z; p; q] ->
  exists a b c d e,
    fs = [a; b; c; d; e] /\ int a = Some x /\ int b = Some y /\
    int c = Some z /\ int d = Some p /\ int e = Some q.
Proof.
  intros H. pose proof (ints_length _ _ H) as L.
  do 6 (destruct fs as [|? fs]; try discriminate L).
  repeat (apply ints_cons in H as (? & ? & [= <- <-] & ? & H)).
  do 5 eexists. repeat split; eassumption.
Qed.

Lemma ints_three_more fs x y z aux :
  ints fs = Some (x :: y :: z :: aux) ->
  exists a b c rest,
    fs = a :: b :: c :: rest /\ int a = Some x /\ int b = Some y /\
    int c = Some z /\ ints rest = Some aux.
Proof.
  intros H. pose proof (ints_length _ _ H) as L.
  do 3 (destruct fs as [|? fs]; try discriminate L).
  do 3 (apply ints_cons in H as (? & ? & [= <- <-] & ? & H)).
  do 4 eexists. repeat split; eassumption.
Qed.

(** A five-field line of integers: the REDUCED branch, to its end. *)
Lemma process_line_summary timestamp line st x y z peak avg :
  consistent st = true ->
  ints (split comma line) = Some [x; y; z; peak; avg] ->
  process_line timestamp line st =
  (Return tt,
   accepted reduced (sample_row reduced [x; y; z; peak; avg] timestamp) st).
Proof.
  intros Hc H.
  destruct (ints_five _ _ _ _ _ _ H) as (a & b & c & d & e & Hs & Ha & Hb & Hc' & Hd & He).
  unfold process_line.
  rewrite (int_head_not_comment _ _ _ _ Hs Ha), Hs.
  cbn [List.length Nat.ltb Nat.leb nth skipn Nat.eqb].
  unfold try_except, int_. rewrite Ha, Hb, Hc', Hd, He.
  rewrite !bind_ret, bind_run.
  rewrite (mode_check_consistent reduced st Hc).
  rewrite write_sample_open by reflexivity.
  cbn. unfold accepted. cbn. now rewrite <- app_assoc.
Qed.

(** A line of eleven or more integer fields: the RAW branch, to its
    end. *)
Lemma process_line_wide timestamp line st x y z aux :
  consistent st = true ->
  ints (split comma line) = Some (x :: y :: z :: aux) ->
  (8 <= List.length aux)%nat ->
  process_line timestamp line st =
  (Return tt, accepted raw (sample_row raw (x :: y :: z :: aux) timestamp) st).
Proof.
  intros Hc H L.
  destruct (ints_three_more _ _ _ _ _ H) as (a & b & c & rest & Hs & Ha & Hb & Hc' & Hr).
  pose proof (ints_length _ _ Hr) as Lr.
  unfold process_line.
  rewrite (int_head_not_comment _ _ _ _ Hs Ha), Hs.
  cbn [List.length nth skipn].
  destruct (Nat.ltb_spec (S (S (S (List.length rest)))) 5); [lia|].
  destruct (Nat.eqb_spec (List.length rest) 2); [lia|].
  destruct (Nat.leb_spec 8 (List.length rest)); [|lia].
  unfold try_except, int_, ints_.
  rewrite Ha, Hb, Hc', (ints_firstn 16 _ _ Hr).
  rewrite !bind_ret, bind_run.
  rewrite (mode_check_consistent raw st Hc).
  rewrite write_sample_open by reflexivity.
  rewrite pad_loop_spec by lia.
  cbn. unfold accepted. cbn. now rewrite <- app_assoc.
Qed.

(** A line that has neither five fields nor eleven or more is dropped. *)
Lemma process_line_dropped timestamp line st :
  List.length (split comma line) <> 5%nat ->
  (List.length (split comma line) <= 10)%nat ->
  process_line timestamp line st = (Return tt, st).
Proof.
  intros N5 L10. unfold process_line.
  destruct (startswith "#" line); [reflexivity|].
  destruct (Nat.ltb_spec (List.length (split comma line)) 5); [reflexivity|].
  rewrite length_skipn.
  destruct (Nat.eqb_spec (List.length (split comma line) - 3) 2); [lia|].
  destruct (Nat.leb_spec 8 (List.length (split comma line) - 3)); [lia|].
  unfold try_except, int_.
  destruct (int (nth 0 _ "")); [|reflexivity].
  destruct (int (nth 1 _ "")); [|reflexivity].
  destruct (int (nth 2 _ "")); reflexivity.
Qed.

(** Every call of [process_line] ends in one of three ways: the line is
    dropped, the mode check ran and a later field failed to parse, or the
    row of the line was written. *)
Lemma process_line_cases timestamp line st :
  consistent st = true ->
  process_line timestamp line st = (Return tt, st)
  \/ (exists m,
        ints (firstn 19 (split comma line)) = None /\
        process_line timestamp line st = (Return tt, committed m st))
  \/ (exists m vs,
        ints (firstn 19 (split comma line)) = Some (firstn 19 vs) /\
        (3 <= List.length vs)%nat /\
        process_line timestamp line st =
        (Return tt, accepted m (sample_row m vs timestamp) st)).
Proof.
  intros Hc.
  destruct (Nat.eq_dec (List.length (split comma line)) 5) as [E5|N5].
  - (* five fields *)
    destruct (startswith "#" line) eqn:Hh.
    { left. unfold process_line. now rewrite Hh. }
    destruct (split comma line) as [|a [|b [|c [|d [|e [|? ?]]]]]] eqn:Hs;
      try discriminate E5.
    unfold process_line. rewrite Hh, Hs.
    cbn [List.length Nat.ltb Nat.leb nth skipn Nat.eqb firstn].
    unfold try_except, int_.
    destruct (int a) as [x|] eqn:Ha; [|now left].
    destruct (int b) as [y|] eqn:Hb; [|now left].
    destruct (int c) as [z|] eqn:Hc'; [|now left].
    rewrite !bind_ret, bind_run, (mode_check_consistent reduced st Hc).
    right. cbn [ints]. rewrite Ha, Hb, Hc'.
    destruct (int d) as [p|] eqn:Hd.
    2:{ left. exists reduced. split; reflexivity. }
    destruct (int e) as [q|] eqn:He.
    2:{ left. exists reduced. split; reflexivity. }
    right. exists reduced, [x; y; z; p; q]. split; [reflexivity|].
    split; [cbn; lia|].
    rewrite !bind_ret, write_sample_open by reflexivity.
    cbn. unfold accepted. cbn. now rewrite <- app_assoc.
  - destruct (Nat.le_gt_cases (List.length (split comma line)) 10) as [L|L].
    { left. now apply process_line_dropped. }
    (* eleven fields or more *)
    destruct (startswith "#" line) eqn:Hh.
    { left. unfold process_line. now rewrite Hh. }
    destruct (split comma line) as [|a [|b [|c rest]]] eqn:Hs;
      try (cbn in L; lia).
    cbn [List.length] in L.
    unfold process_line. rewrite Hh, Hs.
    cbn [List.length nth skipn].
    destruct (Nat.ltb_spec (S (S (S (List.length rest)))) 5); [lia|].
    destruct (Nat.eqb_spec (List.length rest) 2); [lia|].
    destruct (Nat.leb_spec 8 (List.length rest)); [|lia].
    unfold try_except, int_, ints_.
    destruct (int a) as [x|] eqn:Ha; [|now left].
    destruct (int b) as [y|] eqn:Hb; [|now left].
    destruct (int c) as [z|] eqn:Hc'; [|now left].
    rewrite !bind_ret, bind_run, (mode_check_consistent raw st Hc).
    right. change (firstn 19 (a :: b :: c :: rest))
      with (a :: b :: c :: firstn 16 rest).
    cbn [ints]. rewrite Ha, Hb, Hc'.
    destruct (ints (firstn 16 rest)) as [ws|] eqn:Hw.
    2:{ left. exists raw. split; reflexivity. }
    assert (Lw : (List.length ws <= 16)%nat).
    { rewrite (ints_length _ _ Hw). apply firstn_le_length. }
    assert (Fw : firstn 16 ws = ws) by now apply firstn_all2.
    right. exists raw, (x :: y :: z :: ws). split.
    { change (firstn 19 (x :: y :: z :: ws))
        with (x :: y :: z :: firstn 16 ws).
      now rewrite Fw. }
    split; [cbn [List.length]; lia|].
    rewrite !bind_ret, write_sample_open by reflexivity.
    rewrite pad_loop_spec by lia.
    unfold accepted, committed, sample_row.
    cbn [csv_file running sample_count mode csv_initialized io_log].
    change (firstn 3 (x :: y :: z :: ws)) with [x; y; z].
    change (skipn 3 (x :: y :: z :: ws)) with ws.
    rewrite Fw, <- app_assoc. reflexivity.
Qed.

(** A line one of whose first three fields is no integer leaves no
    trace, whatever the state. *)
Lemma process_line_bad_axis timestamp line st :
  ints (firstn 3 (split comma line)) = None ->
  process_line timestamp line st = (Return tt, st).
Proof.
  intros H. unfold process_line.
  destruct (startswith "#" line); [reflexivity|].
  destruct (Nat.ltb_spec (List.length (split comma line)) 5) as [|L];
    [reflexivity|].
  destruct (split comma line) as [|a [|b [|c rest]]];
    try (cbn in L; lia).
  cbn [firstn ints nth] in *. unfold try_except, int_.
  destruct (int a); [|reflexivity].
  destruct (int b); [|reflexivity].
  destruct (int c); [discriminate|reflexivity].
Qed.

Lemma consistent_committed m st : consistent (committed m st) = true.
Proof. reflexivity. Qed.


Lemma sample_row_is_sample m vs timestamp :
  (3 <= List.length vs)%nat ->
  is_sample_row (EvWriteRow (sample_row m vs timestamp)) = true.
Proof.
  intros L. destruct vs as [|x vs]; [cbn in L; lia|]. now destruct m.
Qed.

Lemma sample_row_not_header m vs timestamp :
  (3 <= List.length vs)%nat ->
  is_header_row (EvWriteRow (sample_row m vs timestamp)) = false.
Proof.
  intros L. destruct vs as [|x vs]; [cbn in L; lia|]. now destruct m.
Qed.

Lemma headers_is_header m : is_header_row (EvWriteRow (headers m)) = true.
Proof. now destruct m. Qed.

Lemma sample_rows_committed m st :
  sample_rows (io_log (committed m st)) = sample_rows (io_log st).
Proof.
  unfold sample_rows, committed. cbn [io_log]. rewrite filter_app.
  destruct (csv_initialized st), m; cbn; now rewrite app_nil_r.
Qed.

Lemma sample_rows_accepted m r st :
  is_sample_row (EvWriteRow r) = true ->
  sample_rows (io_log (accepted m r st)) =
  (sample_rows (io_log st) ++ [EvWriteRow r])%list.
Proof.
  intros Hr. unfold sample_rows, accepted. cbn [io_log].
  rewrite !filter_app. cbn [filter]. rewrite Hr.
  replace (filter is_sample_row
             (if csv_initialized st then []
              else [EvOpen; EvWriteRow (headers m); EvFlush]))
    with (@nil io_event) by (destruct (csv_initialized st), m; reflexivity).
  now destruct ((sample_count st + 1) mod 500 =? 0).
Qed.

Lemma header_rows_accepted m r st :
  is_header_row (EvWriteRow r) = false ->
  filter is_header_row (io_log (accepted m r st)) =
  (filter is_header_row (io_log st)
   ++ (if csv_initialized st then [] else [EvWriteRow (headers m)]))%list.
Proof.
  intros Hr. unfold accepted. cbn [io_log].
  rewrite !filter_app. cbn [filter]. rewrite Hr.
  replace (filter is_header_row
             (if (sample_count st + 1) mod 500 =? 0 then [EvFlush] else []))
    with (@nil io_event)
    by (destruct ((sample_count st + 1) mod 500 =? 0); reflexivity).
  rewrite app_nil_r.
  now destruct (csv_initialized st), m.
Qed.

Lemma header_rows_committed m st :
  filter is_header_row (io_log (committed m st)) =
  (filter is_header_row (io_log st)
   ++ (if csv_initialized st then [] else [EvWriteRow (headers m)]))%list.
Proof.
  unfold committed. cbn [io_log]. rewrite filter_app.
  now destruct (csv_initialized st), m.
Qed.

Lemma session_inv_init : session_inv init.
Proof. split; reflexivity. Qed.

Lemma session_inv_step timestamp line st :
  session_inv st ->
  result (process_line timestamp line) st = Return tt /\
  session_inv (exec (process_line timestamp line) st).
Proof.
  intros [Hc Hh]. unfold result, exec.
  destruct (process_line_cases timestamp line st Hc)
    as [E|[(m & _ & E)|(m & vs & _ & L & E)]]; rewrite E; cbn [fst snd].
  - now repeat split.
  - repeat split. unfold header_writes in *.
    rewrite header_rows_committed, length_app, Hh.
    now destruct (csv_initialized st).
  - repeat split. unfold header_writes in *.
    rewrite header_rows_accepted by now apply sample_row_not_header.
    rewrite length_app, Hh. now destruct (csv_initialized st).
Qed.

Lemma process_lines_cons timestamp line rest st :
  process_lines ((timestamp, line) :: rest) st =
  match process_line timestamp line st with
  | (Return _, st') => process_lines rest st'
  | (Raise e, st') => (Raise e, st')
  end.
Proof. reflexivity. Qed.

(** A session of lines never raises and keeps the invariant. *)
Lemma session_inv_lines lines : forall st,
  session_inv st ->
  result (process_lines lines) st = Return tt /\
  session_inv (exec (process_lines lines) st).
Proof.
  induction lines as [|[timestamp line] rest IH]; intros st Hi.
  - now split.
  - destruct (session_inv_step timestamp line st Hi) as [Hr Hi'].
    unfold result, exec in *. rewrite process_lines_cons.
    destruct (process_line timestamp line st) as [[[]|e] st'];
      cbn [fst snd] in *; [|discriminate].
    now apply IH.
Qed.

(** *** The flush every 500 samples *)

Lemma mod500_next c :
  (c + 1) mod 500 = if c mod 500 =? 499 then 0 else c mod 500 + 1.
Proof.
  destruct (Z.eqb_spec (c mod 500) 499);
    Z.div_mod_to_equations; lia.
Qed.

Lemma written_app c l1 : forall l2,
  written c (l1 ++ l2) =
  (written c l1 ++ written (c + Z.of_nat (List.length l1)) l2)%list.
Proof.
  revert c. induction l1 as [|r l1 IH]; intros c l2.
  - cbn. now rewrite Z.add_0_r.
  - cbn [app written List.length]. rewrite IH.
    replace (c + 1 + Z.of_nat (List.length l1))
      with (c + Z.of_nat (S (List.length l1))) by lia.
    now rewrite <- !app_assoc.
Qed.



(** *** The read loop on summary lines *)



Lemma read_loop_cons timestamp r rest st :
  read_loop ((timestamp, r) :: rest) st =
  match loop_body timestamp r st with
  | (Return _, st') => read_loop rest st'
  | (Raise e, st') => (Raise e, st')
  end.
Proof. reflexivity. Qed.


Lemma teardown_open st :
  csv_file st = OpenFile ->
  teardown st =
  (Return tt,
   {| csv_file := ClosedFile; running := false;
      sample_count := sample_count st; mode := mode st;
      csv_initialized := csv_initialized st;
      io_log := (io_log st ++ [EvClose])%list |}).
Proof.
  intros H. unfold teardown. unfold_m. cbn. now rewrite H.
Qed.

(** *** Clients of the store *)

Lemma sample_not_header e : is_sample_row e = true -> is_header_row e = false.
Proof. destruct e as [|[|[] ?]| |]; now cbn. Qed.

Lemma do_calls_cons c rest st :
  do_calls (c :: rest) st =
  match do_call c st with
  | (Return _, st') => do_calls rest st'
  | (Raise e, st') => (Raise e, st')
  end.
Proof. reflexivity. Qed.

(** Once the header is there, further calls add no header and count
    their rows. *)
Lemma do_calls_initialized calls : forall st,
  csv_initialized st = true -> csv_file st = OpenFile ->
  forallb writes_sample_rows calls = true ->
  exists st',
    do_calls calls st = (Return tt, st') /\
    filter is_header_row (io_log st') = filter is_header_row (io_log st) /\
    sample_count st' = sample_count st + Z.of_nat (appends calls).
Proof.
  induction calls as [|c rest IH]; intros st Hi Hf Hall.
  - exists st. repeat split. cbn. lia.
  - cbn [forallb] in Hall. apply andb_prop in Hall as [Hc Hrest].
    rewrite do_calls_cons. destruct c as [m|r]; cbn [do_call].
    + rewrite init_csv_done by assumption.
      destruct (IH st Hi Hf Hrest) as (st' & E & Hh & Hn).
      exists st'. now repeat split.
    + rewrite write_sample_open by assumption.
      match goal with |- context [do_calls rest ?s] =>
        destruct (IH s Hi eq_refl Hrest) as (st' & E & Hh & Hn)
      end.
      exists st'. repeat split; [assumption| |].
      * rewrite Hh. cbn [io_log]. rewrite filter_app. cbn [filter].
        cbn [writes_sample_rows] in Hc.
        rewrite (sample_not_header _ Hc).
        destruct ((sample_count st + 1) mod 500 =? 0); cbn;
          now rewrite app_nil_r.
      * rewrite Hn. cbn [sample_count]. unfold appends. cbn [filter List.length].
        lia.
Qed.

End LoggerFacts.

(* ===================================================================== *)
(** ** Facts about the gateway *)
(* ===================================================================== *)

Section GatewayFacts.

Import PyText Gateway.

Variable cfg : Config.

Ltac unfold_g :=
  unfold py_mod;
  unfold set_accel_idx, set_mic_batch, set_last_accel_publish, set_stats,
         publish, int_, ints_;
  unfold bind, ret, get, modify, raise, try_except.

(** An accelerometer line whose three values parse. *)
Lemma main_line_accel now line st a b c x y z :
  split comma line = ["A"; a; b; c] ->
  int a = Some x -> int b = Some y -> int c = Some z ->
  main_line cfg now line st = (Return tt, accel_taken cfg now x y z st).
Proof.
  intros Hs Ha Hb Hc. unfold main_line. rewrite Hs. cbn [nth List.length].
  cbn [String.eqb Ascii.eqb Bool.eqb Nat.eqb andb].
  unfold_g. rewrite Ha, Hb, Hc. cbn. unfold accel_taken.
  now destruct (Qle_bool _ _).
Qed.

(** An accelerometer line with a value that does not parse. *)
Lemma main_line_accel_bad now line st a b c :
  split comma line = ["A"; a; b; c] ->
  ints [a; b; c] = None ->
  main_line cfg now line st = (Return tt, errored st).
Proof.
  intros Hs Hi. unfold main_line. rewrite Hs. cbn [nth List.length].
  cbn [String.eqb Ascii.eqb Bool.eqb Nat.eqb andb].
  unfold_g. cbn [ints] in Hi.
  destruct (int a); [|reflexivity].
  destruct (int b); [|reflexivity].
  destruct (int c); [discriminate|reflexivity].
Qed.

(** A microphone line whose values all parse. *)
Lemma main_line_mic now line st f fs samples :
  MIC_PUBLISH_EVERY_N cfg <> 0 ->
  split comma line = "M" :: f :: fs ->
  ints (f :: fs) = Some samples ->
  main_line cfg now line st = (Return tt, mic_taken cfg samples st).
Proof.
  intros HN Hs Hi. unfold main_line. rewrite Hs.
  cbn [nth List.length skipn].
  cbn [String.eqb Ascii.eqb Bool.eqb Nat.eqb Nat.ltb Nat.leb andb].
  unfold_g. rewrite Hi. cbn.
  destruct (Z.eqb_spec (MIC_PUBLISH_EVERY_N cfg) 0); [contradiction|].
  unfold mic_taken.
  now destruct (mic_batch st mod MIC_PUBLISH_EVERY_N cfg =? 0).
Qed.

(** A microphone line with a value that does not parse. *)
Lemma main_line_mic_bad now line st f fs :
  split comma line = "M" :: f :: fs ->
  ints (f :: fs) = None ->
  main_line cfg now line st = (Return tt, errored st).
Proof.
  intros Hs Hi. unfold main_line. rewrite Hs.
  cbn [nth List.length skipn].
  cbn [String.eqb Ascii.eqb Bool.eqb Nat.eqb Nat.ltb Nat.leb andb].
  unfold_g. now rewrite Hi.
Qed.

(** Whatever the line, [main_line] ends in one of these ways. *)
Lemma main_line_cases now line st :
  main_line cfg now line st = (Return tt, st)
  \/ main_line cfg now line st = (Return tt, errored st)
  \/ (exists x y z,
        main_line cfg now line st = (Return tt, accel_taken cfg now x y z st))
  \/ (exists samples,
        main_line cfg now line st = (Return tt, mic_taken cfg samples st))
  \/ (MIC_PUBLISH_EVERY_N cfg = 0 /\
      main_line cfg now line st = (Raise ZeroDivisionError, st)).
Proof.
  destruct (split comma line) as [|t parts] eqn:Hs.
  { now apply split_nonempty in Hs. }
  destruct (String.eqb_spec t "A") as [->|NA].
  - destruct parts as [|a [|b [|c [|? ?]]]];
      try (left; unfold main_line; rewrite Hs; reflexivity).
    destruct (ints [a; b; c]) as [vs|] eqn:Hi.
    + pose proof (ints_length _ _ Hi) as L.
      destruct vs as [|x [|y [|z [|? ?]]]]; try discriminate L.
      cbn [ints] in Hi.
      destruct (int a) eqn:Ha; [|discriminate].
      destruct (int b) eqn:Hb; [|discriminate].
      destruct (int c) eqn:Hc; [|discriminate].
      injection Hi as -> -> ->.
      right; right; left. exists x, y, z.
      now apply (main_line_accel now line st a b c).
    + right; left. now apply (main_line_accel_bad now line st a b c).
  - destruct (String.eqb_spec t "M") as [->|NM].
    + destruct parts as [|f fs].
      { left. unfold main_line. rewrite Hs. reflexivity. }
      destruct (ints (f :: fs)) as [samples|] eqn:Hi.
      * destruct (Z.eq_dec (MIC_PUBLISH_EVERY_N cfg) 0) as [E|NE].
        -- do 4 right. split; [assumption|].
           unfold main_line. rewrite Hs.
           cbn [nth List.length skipn].
           cbn [String.eqb Ascii.eqb Bool.eqb Nat.eqb Nat.ltb Nat.leb andb].
           unfold_g. rewrite Hi, E. reflexivity.
        -- do 3 right; left. exists samples.
           now apply (main_line_mic now line st f fs).
      * right; left. now apply (main_line_mic_bad now line st f fs).
    + left. unfold main_line. rewrite Hs. cbn [nth].
      apply String.eqb_neq in NA, NM. now rewrite NA, NM.
Qed.

(** *** The time gate *)

(** In any turn of the loop, either an accelerometer sample is published,
    the gate was open and [last_accel_publish] becomes the clock reading
    of the turn, or nothing is published on that topic and
    [last_accel_publish] stays. *)
Lemma main_loop_body_gate now r st :
  let st' := exec (main_loop_body cfg now r) st in
  (accel (stats st') = accel (stats st) + 1 /\
   last_accel_publish st' = now /\
   (ACCEL_PUBLISH_INTERVAL cfg <= now - last_accel_publish st)%Q)
  \/ (accel (stats st') = accel (stats st) /\
      last_accel_publish st' = last_accel_publish st).
Proof.
  unfold exec. destruct r as [| |raw_text]; cbn [main_loop_body].
  - now right.
  - now right.
  - destruct (String.eqb (strip raw_text) ""); [now right|].
    destruct (main_line_cases now (strip raw_text) st)
      as [E|[E|[(x & y & z & E)|[(samples & E)|[_ E]]]]];
      rewrite E; cbn [snd]; try (now right).
    + unfold accel_taken.
      destruct (Qle_bool _ _) eqn:G; [left|now right].
      apply Qle_bool_iff in G. now repeat split.
    + right. unfold mic_taken.
      now destruct (mic_batch st mod MIC_PUBLISH_EVERY_N cfg =? 0).
Qed.

Lemma monotonic_cons a clock :
  monotonic (a :: clock) = true ->
  Forall (fun t => (a <= t)%Q) clock /\ monotonic clock = true.
Proof.
  revert a. induction clock as [|b clock IH]; intros a H.
  - split; [constructor|reflexivity].
  - cbn [monotonic] in H. apply andb_prop in H as [Hab Hm].
    apply Qle_bool_iff in Hab.
    destruct (IH b Hm) as [Hb _]. split; [|assumption].
    constructor; [assumption|].
    eapply Forall_impl; [|exact Hb].
    intros t Ht. now apply Qle_trans with b.
Qed.

(** The instants of publication are clock readings of the run. *)
Lemma accel_publish_instants_incl reads : forall st,
  incl (accel_publish_instants cfg reads st) (map fst reads).
Proof.
  induction reads as [|[now r] rest IH]; intros st t Ht; [contradiction|].
  cbn [accel_publish_instants] in Ht.
  destruct (main_loop_body cfg now r st) as [o st'].
  apply in_app_or in Ht as [Ht|Ht].
  - destruct (_ =? _); [|contradiction].
    destruct Ht as [<-|[]]. now left.
  - right. destruct o; [|contradiction]. now apply (IH st').
Qed.

(** Under a monotonic clock, the instants of publication are at least the
    interval after [last_accel_publish], and pairwise at least the
    interval apart. *)
Lemma accel_publish_instants_apart reads : forall st,
  monotonic (map fst reads) = true ->
  Forall (fun t => (ACCEL_PUBLISH_INTERVAL cfg <= t - last_accel_publish st)%Q)
         (accel_publish_instants cfg reads st)
  /\ ForallOrdPairs (fun a b => (ACCEL_PUBLISH_INTERVAL cfg <= b - a)%Q)
                    (accel_publish_instants cfg reads st).
Proof.
  induction reads as [|[now r] rest IH]; intros st Hm.
  - split; constructor.
  - cbn [map fst] in Hm. apply monotonic_cons in Hm as [Hge Hm].
    cbn [accel_publish_instants].
    pose proof (main_loop_body_gate now r st) as G. unfold exec in G.
    pose proof (accel_publish_instants_incl rest) as Hin.
    destruct (main_loop_body cfg now r st) as [o st']. cbn [snd] in G.
    destruct o as [[]|e].
    + destruct (IH st' Hm) as [Hall Hpairs].
      destruct G as [(Ha & Hl & Hg)|(Ha & Hl)]; rewrite Ha.
      * rewrite Z.eqb_refl. cbn [app]. split.
        -- constructor; [assumption|].
           apply Forall_forall. intros t Ht.
           assert (now <= t)%Q.
           { rewrite Forall_forall in Hge. apply Hge. now apply (Hin st'). }
           lra.
        -- constructor; [|assumption]. now rewrite <- Hl.
      * destruct (Z.eqb_spec (accel (stats st)) (accel (stats st) + 1)); [lia|].
        cbn [app]. split; [|assumption]. now rewrite <- Hl.
    + rewrite app_nil_r.
      destruct G as [(Ha & Hl & Hg)|(Ha & Hl)]; rewrite Ha.
      * rewrite Z.eqb_refl. split; repeat constructor. assumption.
      * destruct (Z.eqb_spec (accel (stats st)) (accel (stats st) + 1)); [lia|].
        split; constructor.
Qed.

(** *** The count gate *)

Lemma mic_read_inv now r :
  is_mic_read (now, r) = true ->
  exists raw_text f fs samples,
    r = ReadText raw_text /\
    split comma (strip raw_text) = "M" :: f :: fs /\
    ints (f :: fs) = Some samples.
Proof.
  unfold is_mic_read. cbn [snd].
  destruct r as [| |raw_text]; try discriminate.
  destruct (split comma (strip raw_text)) as [|tag [|f fs]] eqn:Hs;
    try discriminate.
  intros H. apply andb_prop in H as [Ht Hi].
  apply String.eqb_eq in Ht. subst tag.
  destruct (ints (f :: fs)) as [samples|] eqn:E; [|discriminate].
  now exists raw_text, f, fs, samples.
Qed.

Lemma main_loop_body_mic now r st :
  MIC_PUBLISH_EVERY_N cfg <> 0 ->
  is_mic_read (now, r) = true ->
  exists samples,
    main_loop_body cfg now r st = (Return tt, mic_taken cfg samples st).
Proof.
  intros HN Hr.
  destruct (mic_read_inv _ _ Hr) as (raw_text & f & fs & samples & -> & Hs & Hi).
  exists samples. cbn [main_loop_body].
  destruct (String.eqb_spec (strip raw_text) "") as [E|_].
  { rewrite E in Hs. discriminate Hs. }
  now apply (main_line_mic now _ st f fs).
Qed.

Lemma mic_batches_app l1 l2 :
  mic_batches (l1 ++ l2) = (mic_batches l1 ++ mic_batches l2)%list.
Proof. unfold mic_batches. now rewrite flat_map_app. Qed.

Lemma batch_numbers_S first n :
  batch_numbers first (S n) = first :: batch_numbers (first + 1) n.
Proof.
  unfold batch_numbers. cbn [seq map]. rewrite Z.add_0_r. f_equal.
  rewrite <- seq_shift, map_map. apply map_ext. intros i. lia.
Qed.

(** Microphone lines only: the loop returns, the batch counter advances
    by one per line, and the batches published are those whose number is
    a multiple of [MIC_PUBLISH_EVERY_N]. *)
Lemma main_loop_mic reads : forall st,
  MIC_PUBLISH_EVERY_N cfg <> 0 ->
  forallb is_mic_read reads = true ->
  exists st',
    main_loop cfg reads st = (Return tt, st') /\
    mic_batch st' = mic_batch st + Z.of_nat (List.length reads) /\
    mic_batches (published st') =
    (mic_batches (published st)
     ++ filter (fun b => b mod MIC_PUBLISH_EVERY_N cfg =? 0)
               (batch_numbers (mic_batch st) (List.length reads)))%list.
Proof.
  induction reads as [|[now r] rest IH]; intros st HN Hall.
  - exists st. repeat split.
    + cbn. lia.
    + cbn. now rewrite app_nil_r.
  - cbn [forallb] in Hall. apply andb_prop in Hall as [Hr Hrest].
    destruct (main_loop_body_mic now r st HN Hr) as (samples & E).
    destruct (IH (mic_taken cfg samples st) HN Hrest) as (st' & E' & Hb & Hp).
    exists st'. split; [|split].
    + cbn [main_loop]. rewrite bind_run, E. exact E'.
    + rewrite Hb. unfold mic_taken.
      destruct (_ =? 0); cbn [mic_batch List.length]; lia.
    + rewrite Hp. cbn [List.length]. rewrite batch_numbers_S. cbn [filter].
      unfold mic_taken.
      destruct (mic_batch st mod MIC_PUBLISH_EVERY_N cfg =? 0);
        cbn [mic_batch published].
      * rewrite mic_batches_app. cbn. now rewrite <- app_assoc.
      * reflexivity.
Qed.

(** An [A] line without exactly three more fields is passed over. *)
Lemma main_line_accel_arity now line st rest :
  split comma line = "A" :: rest ->
  List.length rest <> 3%nat ->
  main_line cfg now line st = (Return tt, st).
Proof.
  intros Hs L. unfold main_line. rewrite Hs.
  destruct rest as [|a [|b [|c [|? ?]]]]; try reflexivity.
  now contradiction L.
Qed.

End GatewayFacts.

(* ===================================================================== *)
(** ** Properties of the untagged logger *)
(* ===================================================================== *)

Section LoggerProperties.

Import PyText Logger.

Lemma firstn_min {A} n (l : list A) :
  firstn (Nat.min (List.length l) n) l = firstn n l.
Proof.
  destruct (Nat.le_gt_cases (List.length l) n) as [L|L].
  - rewrite Nat.min_l by assumption.
    now rewrite firstn_all, firstn_all2.
  - now rewrite Nat.min_r by lia.
Qed.

(** C4.  An untagged line all of whose fields are integers: with exactly
    five fields, the row written is x, y, z, peak, avg in field order
    (and the time stamp); with three fields and eight or more further
    ones, the row carries x, y, z and sixteen channel values, which are
    the first min(k-3, 16) further values followed by zeros. *)
Theorem untagged_shapes_decoded timestamp line st vs :
  consistent st = true ->
  ints (split comma line) = Some vs ->
  (forall x y z peak avg,
     vs = [x; y; z; peak; avg] ->
     process_line timestamp line st =
     (Return tt,
      accepted reduced
        [CInt x; CInt y; CInt z; CInt peak; CInt avg; CStr timestamp] st))
  /\
  (forall x y z aux,
     vs = x :: y :: z :: aux ->
     (8 <= List.length aux)%nat ->
     let n := Nat.min (List.length aux) 16 in
     let channels := (firstn n aux ++ repeat 0 (16 - n))%list in
     List.length channels = 16%nat /\
     process_line timestamp line st =
     (Return tt,
      accepted raw
        ([CInt x; CInt y; CInt z] ++ map CInt channels ++ [CStr timestamp])%list
        st)).
Proof.
  intros Hc Hi. split.
  - intros x y z peak avg ->.
    now rewrite (process_line_summary timestamp line st x y z peak avg).
  - intros x y z aux -> L n channels. subst channels n. split.
    + rewrite length_app, repeat_length, length_firstn. lia.
    + rewrite (process_line_wide timestamp line st x y z aux) by assumption.
      unfold sample_row.
      change (firstn 3 (x :: y :: z :: aux)) with [x; y; z].
      change (skipn 3 (x :: y :: z :: aux)) with aux.
      rewrite firstn_min, length_firstn.
      now rewrite (Nat.min_comm 16).
Qed.

Lemma untagged_shapes_decoded_witness :
  process_line "t0" "100,200,300,5,9" init =
  (Return tt,
   accepted reduced
     [CInt 100; CInt 200; CInt 300; CInt 5; CInt 9; CStr "t0"] init)
  /\
  process_line "t1" "1,2,3,11,12,13,14,15,16,17,18" init =
  (Return tt,
   accepted raw
     [CInt 1; CInt 2; CInt 3;
      CInt 11; CInt 12; CInt 13; CInt 14; CInt 15; CInt 16; CInt 17; CInt 18;
      CInt 0; CInt 0; CInt 0; CInt 0; CInt 0; CInt 0; CInt 0; CInt 0;
      CStr "t1"] init).
Proof.
  split.
  - exact (proj1 (untagged_shapes_decoded "t0" "100,200,300,5,9" init
                    [100; 200; 300; 5; 9] eq_refl eq_refl)
                 100 200 300 5 9 eq_refl).
  - refine (proj2 (proj2 (untagged_shapes_decoded
                            "t1" "1,2,3,11,12,13,14,15,16,17,18" init
                            [1; 2; 3; 11; 12; 13; 14; 15; 16; 17; 18]
                            eq_refl eq_refl)
                         1 2 3 [11; 12; 13; 14; 15; 16; 17; 18] eq_refl _)).
    cbn. lia.
Defined.

(** C10.  An untagged line with four fields, or with six to ten, is
    dropped: [process_line] returns with the state as it was, so no row,
    no mode, no header and no counter changes. *)
Theorem arity_gap_dropped timestamp line st :
  let k := List.length (split comma line) in
  (k = 4 \/ 6 <= k <= 10)%nat ->
  process_line timestamp line st = (Return tt, st).
Proof.
  intros k Hk. apply process_line_dropped; fold k; lia.
Qed.

Lemma arity_gap_dropped_witness :
  process_line "t0" "1,2,3,4" init = (Return tt, init) /\
  process_line "t0" "1,2,3,4,5,6,7" (accepted reduced [] init) =
  (Return tt, accepted reduced [] init).
Proof.
  split.
  - apply (arity_gap_dropped "t0" "1,2,3,4" init). cbn. lia.
  - apply (arity_gap_dropped "t0" "1,2,3,4,5,6,7"). cbn. lia.
Defined.

(** C1, as the claim states it, fails: after a five-field line has
    committed the logger to the reduced mode, an eleven-field line is
    not dropped; its row is written and the mode becomes raw. *)
Lemma mode_not_latched :
  let st1 := exec (process_line "t0" "1,2,3,4,5") init in
  let st2 := exec (process_line "t1" "1,2,3,11,12,13,14,15,16,17,18") st1 in
  mode st1 = Some reduced /\
  mode st2 = Some raw /\
  sample_count st2 = sample_count st1 + 1 /\
  sample_rows (io_log st2) =
  (sample_rows (io_log st1)
   ++ [EvWriteRow
         [CInt 1; CInt 2; CInt 3;
          CInt 11; CInt 12; CInt 13; CInt 14; CInt 15; CInt 16; CInt 17;
          CInt 18;
          CInt 0; CInt 0; CInt 0; CInt 0; CInt 0; CInt 0; CInt 0; CInt 0;
          CStr "t1"]])%list.
Proof. repeat split. Qed.

(** C1, amended.  In every session, once a mode is committed the header
    has been written exactly once and a later line never writes another;
    the mode is not latched: every later line of integers with five
    fields, or with eleven or more, is written as a row, also when its
    shape is not the one committed, and sets the mode to its own
    shape. *)
Theorem header_latched_mode_follows lines timestamp line vs m0 :
  let st := exec (process_lines lines) init in
  let st' := exec (process_line timestamp line) st in
  let m := if (List.length vs =? 5)%nat then reduced else raw in
  mode st = Some m0 ->
  ints (split comma line) = Some vs ->
  (List.length vs = 5 \/ 11 <= List.length vs)%nat ->
  header_writes (io_log st) = 1%nat /\
  filter is_header_row (io_log st') = filter is_header_row (io_log st) /\
  mode st' = Some m /\
  sample_count st' = sample_count st + 1 /\
  sample_rows (io_log st') =
  (sample_rows (io_log st) ++ [EvWriteRow (sample_row m vs timestamp)])%list.
Proof.
  intros st st' m Hm Hi L.
  destruct (session_inv_lines lines init session_inv_init) as [_ [Hc Hh]].
  fold st in Hc, Hh.
  assert (Hini : csv_initialized st = true).
  { unfold consistent in Hc. rewrite Hm in Hc. cbn in Hc.
    now destruct (csv_initialized st). }
  rewrite Hini in Hh.
  assert (E : process_line timestamp line st =
              (Return tt, accepted m (sample_row m vs timestamp) st)).
  { subst m. destruct L as [L|L].
    - rewrite L. cbn [Nat.eqb].
      destruct vs as [|x [|y [|z [|p [|q [|? ?]]]]]]; try discriminate L.
      now apply process_line_summary.
    - destruct (Nat.eqb_spec (List.length vs) 5); [lia|].
      destruct vs as [|x [|y [|z aux]]]; try (cbn in L; lia).
      apply process_line_wide; [assumption..|]. cbn in L. lia. }
  assert (L3 : (3 <= List.length vs)%nat) by lia.
  unfold st', exec. rewrite E. cbn [snd].
  repeat split.
  - assumption.
  - rewrite header_rows_accepted by now apply sample_row_not_header.
    rewrite Hini. now rewrite app_nil_r.
  - apply sample_rows_accepted. now apply sample_row_is_sample.
Qed.

Lemma header_latched_mode_follows_witness :
  let st := exec (process_lines [("t0", "1,2,3,4,5")]) init in
  let st' := exec (process_line "t1" "1,2,3,11,12,13,14,15,16,17,18") st in
  header_writes (io_log st) = 1%nat /\
  filter is_header_row (io_log st') = filter is_header_row (io_log st) /\
  mode st' = Some raw /\
  sample_count st' = sample_count st + 1 /\
  sample_rows (io_log st') =
  (sample_rows (io_log st)
   ++ [EvWriteRow
         (sample_row raw [1; 2; 3; 11; 12; 13; 14; 15; 16; 17; 18] "t1")])%list.
Proof.
  apply (header_latched_mode_follows
           [("t0", "1,2,3,4,5")] "t1" "1,2,3,11,12,13,14,15,16,17,18"
           [1; 2; 3; 11; 12; 13; 14; 15; 16; 17; 18] reduced).
  - reflexivity.
  - reflexivity.
  - right. cbn. lia.
Defined.

(** C6.  A client that calls [init_csv] first and then [init_csv] and
    [write_sample] any number of times, in any order: the run returns,
    the only header row in the file is the one of the first call, and
    [sample_count] is the number of [write_sample] calls.  Call by call:
    [init_csv] on an initialised logger does nothing, and [write_sample]
    on the open file adds exactly one to [sample_count]. *)
Theorem header_once_count_by_one m calls :
  forallb writes_sample_rows calls = true ->
  let st := exec (do_calls (Call_init_csv m :: calls)) init in
  result (do_calls (Call_init_csv m :: calls)) init = Return tt /\
  filter is_header_row (io_log st) = [EvWriteRow (headers m)] /\
  header_writes (io_log st) = 1%nat /\
  sample_count st = Z.of_nat (appends calls) /\
  (forall m' s, csv_initialized s = true -> init_csv m' s = (Return tt, s)) /\
  (forall r s, csv_file s = OpenFile ->
     result (write_sample r) s = Return tt /\
     sample_count (exec (write_sample r) s) = sample_count s + 1).
Proof.
  intros Hall st. subst st. unfold result, exec.
  rewrite do_calls_cons. cbn [do_call].
  rewrite init_csv_fresh by reflexivity.
  match goal with |- context [do_calls calls ?s] =>
    destruct (do_calls_initialized calls s eq_refl eq_refl Hall)
      as (st' & E & Hh & Hn)
  end.
  rewrite E. cbn [fst snd]. unfold header_writes. rewrite Hh, Hn.
  cbn [io_log sample_count init app].
  repeat split; try (destruct m; reflexivity).
  - apply init_csv_done.
  - now rewrite write_sample_open.
  - now rewrite write_sample_open.
Qed.

Lemma header_once_count_by_one_witness :
  let calls :=
    [Call_write_sample [CInt 1; CStr "t0"]; Call_init_csv raw;
     Call_write_sample [CInt 2; CStr "t1"]; Call_init_csv reduced] in
  let st := exec (do_calls (Call_init_csv reduced :: calls)) init in
  filter is_header_row (io_log st) = [EvWriteRow (headers reduced)] /\
  header_writes (io_log st) = 1%nat /\
  sample_count st = 2.
Proof.
  intros calls st.
  destruct (header_once_count_by_one reduced calls eq_refl)
    as (_ & H1 & H2 & H3 & _).
  exact (conj H1 (conj H2 H3)).
Defined.



End LoggerProperties.

(* ===================================================================== *)
(** ** Properties of the tagged gateway *)
(* ===================================================================== *)

Section GatewayProperties.

Import PyText Gateway.

(** C5.  A tagged line is dispatched on its first field.  With tag [A],
    the line is taken as an accelerometer sample (the sample counter
    advances) if and only if exactly three fields follow and all are
    integers, and it is then taken with exactly these values.  With tag
    [M], any one or more integer fields that follow are taken together
    as one batch. *)
Theorem tagged_dispatch cfg now line st rest :
  MIC_PUBLISH_EVERY_N cfg <> 0 ->
  (split comma line = "A" :: rest ->
     (accel_idx (exec (main_line cfg now line) st) = accel_idx st + 1
      <-> exists x y z, ints rest = Some [x; y; z]) /\
     (forall x y z, ints rest = Some [x; y; z] ->
        main_line cfg now line st =
        (Return tt, accel_taken cfg now x y z st)))
  /\
  (split comma line = "M" :: rest ->
     rest <> [] ->
     forall samples, ints rest = Some samples ->
       List.length samples = List.length rest /\
       main_line cfg now line st = (Return tt, mic_taken cfg samples st)).
Proof.
  intros HN. split.
  - intros Hs.
    assert (Htaken : forall x y z, ints rest = Some [x; y; z] ->
              main_line cfg now line st =
              (Return tt, accel_taken cfg now x y z st)).
    { intros x y z Hi. pose proof (ints_length _ _ Hi) as L.
      destruct rest as [|a [|b [|c [|? ?]]]]; try discriminate L.
      cbn [ints] in Hi.
      destruct (int a) eqn:Ha; [|discriminate].
      destruct (int b) eqn:Hb; [|discriminate].
      destruct (int c) eqn:Hc; [|discriminate].
      injection Hi as -> -> ->.
      now apply (main_line_accel cfg now line st a b c). }
    split; [|exact Htaken]. split.
    + intros Hidx.
      destruct (Nat.eq_dec (List.length rest) 3) as [L|L].
      * destruct (ints rest) as [vs|] eqn:Hi.
        -- pose proof (ints_length _ _ Hi) as Lv. rewrite L in Lv.
           destruct vs as [|x [|y [|z [|? ?]]]]; try discriminate Lv.
           now exists x, y, z.
        -- destruct rest as [|a [|b [|c [|? ?]]]]; try discriminate L.
           unfold exec in Hidx.
           rewrite (main_line_accel_bad cfg now line st a b c Hs Hi) in Hidx.
           cbn in Hidx. lia.
      * unfold exec in Hidx.
        rewrite (main_line_accel_arity cfg now line st rest Hs L) in Hidx.
        cbn in Hidx. lia.
    + intros (x & y & z & Hi). unfold exec. rewrite (Htaken x y z Hi).
      cbn [snd]. unfold accel_taken. now destruct (Qle_bool _ _).
  - intros Hs Hne samples Hi. split; [now apply ints_length|].
    destruct rest as [|f fs]; [contradiction|].
    now apply (main_line_mic cfg now line st f fs).
Qed.

Lemma tagged_dispatch_witness :
  main_line config 1 "A,10,-20,30" Gateway.init =
  (Return tt, accel_taken config 1 10 (-20) 30 Gateway.init)
  /\
  main_line config 1 "M,7" Gateway.init =
  (Return tt, mic_taken config [7] Gateway.init).
Proof.
  assert (HN : MIC_PUBLISH_EVERY_N config <> 0) by discriminate.
  split.
  - exact (proj2 (proj1 (tagged_dispatch config 1 "A,10,-20,30" Gateway.init
                           ["10"; "-20"; "30"] HN) eq_refl)
                 10 (-20) 30 eq_refl).
  - refine (proj2 (proj2 (tagged_dispatch config 1 "M,7" Gateway.init
                            ["7"] HN) eq_refl _ [7] eq_refl)).
    discriminate.
Defined.

(** C8.  The time gate.  In every turn of the loop either an
    accelerometer sample is published, and then the clock reading is at
    least the interval after [last_accel_publish], which becomes that
    reading; or none is published and [last_accel_publish] stays.  For a
    line [A,x,y,z] of integers the sample is published exactly when the
    reading is at least the interval after [last_accel_publish].  Hence,
    when the clock readings of a run never decrease, any two instants at
    which the run published are at least the interval apart. *)
Theorem time_gate_spacing cfg reads st :
  monotonic (map fst reads) = true ->
  ForallOrdPairs (fun a b => (ACCEL_PUBLISH_INTERVAL cfg <= b - a)%Q)
                 (accel_publish_instants cfg reads st)
  /\
  (forall now r s,
     let s' := exec (main_loop_body cfg now r) s in
     (accel (stats s') = accel (stats s) + 1 /\
      last_accel_publish s' = now /\
      (ACCEL_PUBLISH_INTERVAL cfg <= now - last_accel_publish s)%Q)
     \/ (accel (stats s') = accel (stats s) /\
         last_accel_publish s' = last_accel_publish s))
  /\
  (forall now line s a b c x y z,
     split comma line = ["A"; a; b; c] ->
     int a = Some x -> int b = Some y -> int c = Some z ->
     let s' := exec (main_line cfg now line) s in
     ((ACCEL_PUBLISH_INTERVAL cfg <= now - last_accel_publish s)%Q ->
        published s' = (published s ++ [PubAccel x y z (accel_idx s)])%list /\
        last_accel_publish s' = now) /\
     (~ (ACCEL_PUBLISH_INTERVAL cfg <= now - last_accel_publish s)%Q ->
        published s' = published s /\
        last_accel_publish s' = last_accel_publish s)).
Proof.
  intros Hm. split; [|split].
  - now apply accel_publish_instants_apart.
  - intros now r s. apply main_loop_body_gate.
  - intros now line s a b c x y z Hs Ha Hb Hc s'. subst s'. unfold exec.
    rewrite (main_line_accel cfg now line s a b c x y z Hs Ha Hb Hc).
    cbn [snd]. unfold accel_taken.
    destruct (Qle_bool _ _) eqn:G.
    + apply Qle_bool_iff in G. split; [now split|]. intros N. contradiction.
    + split; [|now split]. intros L. apply Qle_bool_iff in L.
      rewrite L in G. discriminate.
Qed.

Lemma time_gate_spacing_witness :
  let reads :=
    [(1%Q, ReadText "A,1,2,3"); (1005 # 1000, ReadText "A,4,5,6");
     (101 # 100, ReadText "A,7,8,9"); (101 # 100, ReadText "M,1,2");
     (2%Q, ReadText "A,0,0,0")] in
  accel_publish_instants config reads Gateway.init = [1; 101 # 100; 2]%Q /\
  ForallOrdPairs (fun a b => (ACCEL_PUBLISH_INTERVAL config <= b - a)%Q)
                 (accel_publish_instants config reads Gateway.init).
Proof.
  intros reads. split; [reflexivity|].
  exact (proj1 (time_gate_spacing config reads Gateway.init eq_refl)).
Defined.

(** C9.  The count gate.  Over a run of microphone lines the batch
    counter advances by one per line, published or not, and the batches
    published are exactly those whose number is a multiple of
    [MIC_PUBLISH_EVERY_N]; with the constant set to 4, ten lines from the
    start publish the batches numbered 0, 4 and 8. *)
Theorem count_gate_decimation cfg reads st :
  MIC_PUBLISH_EVERY_N cfg <> 0 ->
  forallb is_mic_read reads = true ->
  let st' := exec (main_loop cfg reads) st in
  result (main_loop cfg reads) st = Return tt /\
  mic_batch st' = mic_batch st + Z.of_nat (List.length reads) /\
  mic_batches (published st') =
  (mic_batches (published st)
   ++ filter (fun b => b mod MIC_PUBLISH_EVERY_N cfg =? 0)
             (batch_numbers (mic_batch st) (List.length reads)))%list /\
  (MIC_PUBLISH_EVERY_N cfg = 4 -> List.length reads = 10%nat ->
   st = Gateway.init ->
   mic_batches (published st') = [0; 4; 8]).
Proof.
  intros HN Hall st'.
  destruct (main_loop_mic cfg reads st HN Hall) as (st1 & E & Hb & Hp).
  subst st'. unfold result, exec. rewrite E. cbn [fst snd].
  repeat split; try assumption.
  intros H4 L ->. rewrite Hp, H4, L. reflexivity.
Qed.

Lemma count_gate_decimation_witness :
  let cfg := {| ACCEL_PUBLISH_INTERVAL := 1 # 100; MIC_PUBLISH_EVERY_N := 4 |} in
  let reads := map (fun i => (0%Q, ReadText "M,1,2,3")) (seq 0 10) in
  let st' := exec (main_loop cfg reads) Gateway.init in
  mic_batch st' = 10 /\ mic_batches (published st') = [0; 4; 8].
Proof.
  intros cfg reads st'.
  assert (HN : MIC_PUBLISH_EVERY_N cfg <> 0) by discriminate.
  destruct (count_gate_decimation cfg reads Gateway.init HN eq_refl)
    as (_ & H1 & _ & H2).
  exact (conj H1 (H2 eq_refl eq_refl eq_refl)).
Defined.

End GatewayProperties.

(* ===================================================================== *)
(** ** Lines with a field that is no integer, in the logger *)
(* ===================================================================== *)

Section LoggerBadFields.

Import PyText Logger.

(** The mode check changes nothing when the mode is already set to the
    shape at hand. *)
Lemma committed_same m st :
  consistent st = true -> mode st = Some m -> committed m st = st.
Proof.
  unfold consistent, committed. intros Hc Hm.
  destruct st as [f rn n md ini lg]. cbn in *. subst md. cbn in Hc.
  destruct ini; [|discriminate]. destruct f; try discriminate.
  now rewrite app_nil_r.
Qed.

(** A line with a field that is no integer among those [process_line]
    parses: the state stays, or, when the first three fields are
    integers and the line has the field count of a shape, the state is
    the one after the mode check for that shape. *)
Lemma process_line_bad_field timestamp line st :
  consistent st = true ->
  ints (firstn 19 (split comma line)) = None ->
  process_line timestamp line st = (Return tt, st)
  \/ (exists m,
        ((List.length (split comma line) = 5%nat /\ m = reduced)
         \/ ((11 <= List.length (split comma line))%nat /\ m = raw)) /\
        process_line timestamp line st = (Return tt, committed m st)).
Proof.
  intros Hc Hbad.
  destruct (Nat.eq_dec (List.length (split comma line)) 5) as [E5|N5].
  - destruct (startswith "#" line) eqn:Hh.
    { left. unfold process_line. now rewrite Hh. }
    destruct (split comma line) as [|a [|b [|c [|d [|e [|? ?]]]]]] eqn:Hs;
      try discriminate E5.
    unfold process_line. rewrite Hh, Hs.
    cbn [List.length Nat.ltb Nat.leb nth skipn Nat.eqb firstn].
    cbn [firstn ints] in Hbad.
    unfold try_except, int_.
    destruct (int a) as [x|] eqn:Ha; [|now left].
    destruct (int b) as [y|] eqn:Hb; [|now left].
    destruct (int c) as [z|] eqn:Hc'; [|now left].
    rewrite !bind_ret, bind_run, (mode_check_consistent reduced st Hc).
    right. exists reduced. split; [left; now split|].
    destruct (int d) as [p|] eqn:Hd; [|reflexivity].
    destruct (int e) as [q|] eqn:He; [discriminate Hbad|reflexivity].
  - destruct (Nat.le_gt_cases (List.length (split comma line)) 10) as [L|L].
    { left. now apply process_line_dropped. }
    destruct (startswith "#" line) eqn:Hh.
    { left. unfold process_line. now rewrite Hh. }
    destruct (split comma line) as [|a [|b [|c rest]]] eqn:Hs;
      try (cbn in L; lia).
    cbn [List.length] in L.
    unfold process_line. rewrite Hh, Hs.
    cbn [List.length nth skipn].
    destruct (Nat.ltb_spec (S (S (S (List.length rest)))) 5); [lia|].
    destruct (Nat.eqb_spec (List.length rest) 2); [lia|].
    destruct (Nat.leb_spec 8 (List.length rest)); [|lia].
    change (firstn 19 (a :: b :: c :: rest))
      with (a :: b :: c :: firstn 16 rest) in Hbad.
    cbn [ints] in Hbad.
    unfold try_except, int_, ints_.
    destruct (int a) as [x|] eqn:Ha; [|now left].
    destruct (int b) as [y|] eqn:Hb; [|now left].
    destruct (int c) as [z|] eqn:Hc'; [|now left].
    rewrite !bind_ret, bind_run, (mode_check_consistent raw st Hc).
    right. exists raw. split; [right; split; [lia|reflexivity]|].
    destruct (ints (firstn 16 rest)) as [ws|] eqn:Hw;
      [discriminate Hbad|reflexivity].
Qed.

End LoggerBadFields.

(* ===================================================================== *)
(** ** Properties that span both programs *)
(* ===================================================================== *)

Section SharedProperties.

Import PyText.

(** C2, as the claim states it, fails: the untagged line [1,2,3] has
    three fields that all parse, and the logger writes no row for it. *)
Lemma three_integer_fields_no_sample :
  ints (split comma "1,2,3") = Some [1; 2; 3] /\
  ~ (exists r,
       In (Logger.EvWriteRow r)
          (Logger.io_log
             (exec (Logger.process_line "t0" "1,2,3") Logger.init))).
Proof.
  split; [reflexivity|]. intros (r & H). exact H.
Qed.

(** C2, amended.  An untagged line of exactly three fields that all parse
    as integers gives no sample: the logger asks for five fields at
    least and returns with its state as it was.  The sample with exactly
    these three values is what the gateway takes from the same fields
    behind the tag [A]. *)
Theorem three_fields_dropped_untagged timestamp line st a b c x y z :
  split comma line = [a; b; c] ->
  int a = Some x -> int b = Some y -> int c = Some z ->
  Logger.process_line timestamp line st = (Return tt, st) /\
  (forall cfg now tagged gst,
     split comma tagged = "A" :: split comma line ->
     Gateway.main_line cfg now tagged gst =
     (Return tt, Gateway.accel_taken cfg now x y z gst)).
Proof.
  intros Hs Ha Hb Hc. split.
  - apply process_line_dropped; rewrite Hs; cbn; lia.
  - intros cfg now tagged gst Ht. rewrite Hs in Ht.
    now apply (main_line_accel cfg now tagged gst a b c).
Qed.

Lemma three_fields_dropped_untagged_witness :
  Logger.process_line "t0" "1,2,3" Logger.init = (Return tt, Logger.init) /\
  Gateway.main_line Gateway.config 1 "A,1,2,3" Gateway.init =
  (Return tt, Gateway.accel_taken Gateway.config 1 1 2 3 Gateway.init).
Proof.
  destruct (three_fields_dropped_untagged "t0" "1,2,3" Logger.init
              "1" "2" "3" 1 2 3 eq_refl eq_refl eq_refl eq_refl)
    as [H1 H2].
  split; [exact H1|].
  exact (H2 Gateway.config 1%Q "A,1,2,3" Gateway.init eq_refl).
Defined.

(** C3, as the claim states it, fails: on the line [1,2,3,a,5] the
    fourth field is no integer, and yet the logger commits the reduced
    mode, opens the file and writes the header. *)
Lemma bad_field_commits_mode :
  let st' := exec (Logger.process_line "t0" "1,2,3,a,5") Logger.init in
  int "a" = None /\
  Logger.mode Logger.init = None /\
  Logger.mode st' = Some Logger.reduced /\
  Logger.csv_initialized Logger.init = false /\
  Logger.csv_initialized st' = true /\
  Logger.io_log st' =
  [Logger.EvOpen; Logger.EvWriteRow (Logger.headers Logger.reduced);
   Logger.EvFlush].
Proof. repeat split. Qed.

(** C3, amended.  A line with a field that fails to parse as an integer
    gives no sample.  In the logger, when the failing field is among
    those the logger parses (the first three, and the next sixteen), the
    call returns, no row of values is written and [sample_count] stays;
    the whole state stays as it was when the failing field is one of the
    first three, and also when the mode is already the one of the line's
    shape.  The logger counts no errors.  In the gateway, for a line
    with tag [A] and three more fields or with tag [M] and one more or
    several, nothing is published, [stats["errors"]] goes up by one and
    nothing else changes. *)
Theorem bad_field_discarded :
  (forall timestamp line st,
     Logger.consistent st = true ->
     ints (firstn 19 (split comma line)) = None ->
     let st' := exec (Logger.process_line timestamp line) st in
     result (Logger.process_line timestamp line) st = Return tt /\
     Logger.sample_count st' = Logger.sample_count st /\
     Logger.sample_rows (Logger.io_log st') =
     Logger.sample_rows (Logger.io_log st) /\
     (ints (firstn 3 (split comma line)) = None -> st' = st) /\
     (forall m,
        Logger.mode st = Some m ->
        (List.length (split comma line) = 5%nat /\ m = Logger.reduced)
        \/ ((11 <= List.length (split comma line))%nat /\ m = Logger.raw) ->
        st' = st) /\
     ((List.length (split comma line) < 5)%nat
      \/ (6 <= List.length (split comma line) <= 10)%nat ->
      st' = st))
  /\
  (forall cfg now line st tag f fs,
     split comma line = tag :: f :: fs ->
     (tag = "A" /\ List.length fs = 2%nat) \/ tag = "M" ->
     ints (f :: fs) = None ->
     Gateway.main_line cfg now line st = (Return tt, Gateway.errored st) /\
     Gateway.errors (Gateway.stats (Gateway.errored st)) =
     Gateway.errors (Gateway.stats st) + 1 /\
     Gateway.published (Gateway.errored st) = Gateway.published st).
Proof.
  split.
  - intros timestamp line st Hc Hbad st'. subst st'. unfold result, exec.
    assert (Hax : ints (firstn 3 (split comma line)) = None ->
                  Logger.process_line timestamp line st = (Return tt, st))
      by apply process_line_bad_axis.
    assert (Hdrop : (List.length (split comma line) < 5)%nat
                    \/ (6 <= List.length (split comma line) <= 10)%nat ->
                    Logger.process_line timestamp line st = (Return tt, st)).
    { intros H. apply process_line_dropped; lia. }
    destruct (process_line_bad_field timestamp line st Hc Hbad)
      as [E|(m & Hshape & E)].
    + rewrite E. cbn [fst snd]. now repeat split.
    + rewrite E. cbn [fst snd].
      split; [reflexivity|]. split; [reflexivity|].
      split; [apply sample_rows_committed|]. split; [|split].
      * intros H3. apply Hax in H3. rewrite E in H3. now injection H3.
      * intros m' Hm' Hshape'.
        assert (m' = m).
        { destruct Hshape as [[L ->]|[L ->]], Hshape' as [[L' ->]|[L' ->]];
            try reflexivity; lia. }
        subst m'. now apply committed_same.
      * intros H. apply Hdrop in H. rewrite E in H. now injection H.
  - intros cfg now line st tag f fs Hs Htag Hbad.
    split; [|split; reflexivity].
    destruct Htag as [[-> L] | ->].
    + destruct fs as [|b [|c [|? ?]]]; try discriminate L.
      now apply (main_line_accel_bad cfg now line st f b c).
    + now apply (main_line_mic_bad cfg now line st f fs).
Qed.

Lemma bad_field_discarded_witness :
  (let st' := exec (Logger.process_line "t0" "1,2,3,a,5") Logger.init in
   Logger.sample_count st' = 0 /\
   Logger.sample_rows (Logger.io_log st') = []) /\
  exec (Logger.process_line "t0" "1,x,3,4,5") Logger.init = Logger.init /\
  (let st := exec (Logger.process_line "t0" "1,2,3,4,5") Logger.init in
   exec (Logger.process_line "t1" "1,2,3,a,5") st = st) /\
  Gateway.main_line Gateway.config 1 "A,1,x,3" Gateway.init =
  (Return tt, Gateway.errored Gateway.init) /\
  Gateway.main_line Gateway.config 1 "M,1,2,x" Gateway.init =
  (Return tt, Gateway.errored Gateway.init).
Proof.
  destruct bad_field_discarded as [HL HG].
  split; [|split; [|split; [|split]]].
  - destruct (HL "t0" "1,2,3,a,5" Logger.init eq_refl eq_refl)
      as (_ & H1 & H2 & _).
    exact (conj H1 H2).
  - destruct (HL "t0" "1,x,3,4,5" Logger.init eq_refl eq_refl)
      as (_ & _ & _ & H & _).
    exact (H eq_refl).
  - intros st.
    destruct (HL "t1" "1,2,3,a,5" st eq_refl eq_refl)
      as (_ & _ & _ & _ & H & _).
    apply (H Logger.reduced eq_refl). left. split; reflexivity.
  - refine (proj1 (HG Gateway.config 1%Q "A,1,x,3" Gateway.init
                      "A" "1" ["x"; "3"] eq_refl _ eq_refl)).
    left. split; reflexivity.
  - refine (proj1 (HG Gateway.config 1%Q "M,1,2,x" Gateway.init
                      "M" "1" ["2"; "x"] eq_refl _ eq_refl)).
    right. reflexivity.
Defined.

End SharedProperties.

(* ===================================================================== *)
(** ** The primitives on sample inputs *)
(* ===================================================================== *)

Example split_fields :
  PyText.split PyText.comma "100,200,300,5,9" =
  ["100"; "200"; "300"; "5"; "9"].
Proof. reflexivity. Qed.

Example split_edges :
  PyText.split PyText.comma "" = [""] /\
  PyText.split PyText.comma "a," = ["a"; ""] /\
  PyText.split PyText.comma ",," = [""; ""; ""].
Proof. repeat split. Qed.

Example int_literals :
  PyText.int "12" = Some 12 /\ PyText.int " -7 " = Some (-7) /\
  PyText.int "+5" = Some 5 /\ PyText.int "1_000" = Some 1000 /\
  PyText.int "007" = Some 7 /\ PyText.int "-0" = Some 0.
Proof. repeat split. Qed.

Example int_rejects :
  PyText.int "" = None /\ PyText.int "a" = None /\ PyText.int "1.0" = None /\
  PyText.int "_1" = None /\ PyText.int "1_" = None /\
  PyText.int "1__0" = None /\ PyText.int "+ 1" = None /\
  PyText.int "0x10" = None /\ PyText.int "#1" = None /\
  PyText.int "1 2" = None.
Proof. repeat split. Qed.

Example strip_line : PyText.strip "  A,1,2,3 " = "A,1,2,3".
Proof. reflexivity. Qed.

(** The first scenario of the logger: one summary line from the start. *)
Example summary_line_from_start :
  Logger.process_line "t0" "100,200,300,5,9" Logger.init =
  (Return tt,
   {| Logger.csv_file := Logger.OpenFile;
      Logger.running := false;
      Logger.sample_count := 1;
      Logger.mode := Some Logger.reduced;
      Logger.csv_initialized := true;
      Logger.io_log :=
        [Logger.EvOpen;
         Logger.EvWriteRow
           [Logger.CStr "x"; Logger.CStr "y"; Logger.CStr "z";
            Logger.CStr "mic_peak"; Logger.CStr "mic_avg";
            Logger.CStr "timestamp"];
         Logger.EvFlush;
         Logger.EvWriteRow
           [Logger.CInt 100; Logger.CInt 200; Logger.CInt 300;
            Logger.CInt 5; Logger.CInt 9; Logger.CStr "t0"]] |}).
Proof. reflexivity. Qed.

(** A comment line leaves the logger as it was. *)
Example comment_line :
  Logger.process_line "t0" "#debug start" Logger.init =
  (Return tt, Logger.init).
Proof. reflexivity. Qed.

(** With [MIC_PUBLISH_EVERY_N] set to zero, the first microphone line
    ends the loop. *)
Example zero_decimation_raises :
  Gateway.main_line
    {| Gateway.ACCEL_PUBLISH_INTERVAL := 1 # 100;
       Gateway.MIC_PUBLISH_EVERY_N := 0 |} 0 "M,1,2" Gateway.init =
  (Raise ZeroDivisionError, Gateway.init).
Proof. reflexivity. Qed.

(* ===================================================================== *)
(** ** The logger over whole sessions *)
(* ===================================================================== *)

Section LoggerSessions.

Import PyText Logger.

Lemma session_shape_init : session_shape init.
Proof. left. now repeat split. Qed.

Lemma session_shape_consistent st : session_shape st -> consistent st = true.
Proof.
  unfold consistent.
  intros [(Hi & _ & _ & Hm & _)|(Hi & Hf & (m & Hm) & _)];
    now rewrite Hi, Hm, ?Hf.
Qed.

Lemma session_shape_committed m st :
  session_shape st -> session_shape (committed m st).
Proof.
  intros [(Hi & Hl & Hn & Hm & Hf)|(Hi & Hf & (m1 & Hm) & m0 & rows & Hl & Hn & Hr)];
    right; unfold committed; cbn [csv_initialized csv_file mode io_log sample_count];
    rewrite Hi.
  - split; [reflexivity|]. split; [reflexivity|]. split; [now exists m|].
    exists m, []. rewrite Hl, Hn. split; [reflexivity|]. now split.
  - split; [reflexivity|]. split; [reflexivity|]. split; [now exists m|].
    exists m0, rows. rewrite app_nil_r. split; [assumption|]. now split.
Qed.

Lemma session_shape_accepted m r st :
  is_sample_row (EvWriteRow r) = true ->
  session_shape st -> session_shape (accepted m r st).
Proof.
  intros Hrow
    [(Hi & Hl & Hn & Hm & Hf)|(Hi & Hf & (m1 & Hm) & m0 & rows & Hl & Hn & Hr)];
    right; unfold accepted; cbn [csv_initialized csv_file mode io_log sample_count];
    rewrite Hi.
  - split; [reflexivity|]. split; [reflexivity|]. split; [now exists m|].
    exists m, [r]. rewrite Hl, Hn. split; [reflexivity|].
    split; [reflexivity|]. cbn [forallb]. now rewrite Hrow.
  - split; [reflexivity|]. split; [reflexivity|]. split; [now exists m|].
    exists m0, (rows ++ [r])%list. split; [|split].
    + rewrite Hl, written_app, <- Hn. cbn [written app].
      now rewrite <- !app_assoc, app_nil_r.
    + rewrite Hn, length_app. cbn [List.length]. lia.
    + rewrite forallb_app, Hr. cbn [forallb]. now rewrite Hrow.
Qed.

(** A turn of the read loop ends like a call of [process_line]. *)
Lemma loop_body_cases timestamp r st :
  consistent st = true ->
  loop_body timestamp r st = (Return tt, st)
  \/ (exists m, loop_body timestamp r st = (Return tt, committed m st))
  \/ (exists m vs,
        (3 <= List.length vs)%nat /\
        loop_body timestamp r st =
        (Return tt, accepted m (sample_row m vs timestamp) st)).
Proof.
  intros Hc. destruct r as [| |raw_text]; cbn [loop_body]; try now left.
  destruct (String.eqb (strip raw_text) ""); [now left|].
  destruct (process_line_cases timestamp (strip raw_text) st Hc)
    as [E|[(m & _ & E)|(m & vs & _ & L & E)]].
  - now left.
  - right; left. now exists m.
  - right; right. now exists m, vs.
Qed.

Lemma session_shape_step timestamp r st :
  session_shape st ->
  result (loop_body timestamp r) st = Return tt /\
  session_shape (exec (loop_body timestamp r) st).
Proof.
  intros Hs. unfold result, exec.
  destruct (loop_body_cases timestamp r st (session_shape_consistent _ Hs))
    as [E|[(m & E)|(m & vs & L & E)]]; rewrite E; cbn [fst snd].
  - now split.
  - split; [reflexivity|]. now apply session_shape_committed.
  - split; [reflexivity|]. apply session_shape_accepted; [|assumption].
    now apply sample_row_is_sample.
Qed.

(** The read loop never lets an exception out and keeps the shape. *)
Lemma session_shape_loop reads : forall st,
  session_shape st ->
  result (read_loop reads) st = Return tt /\
  session_shape (exec (read_loop reads) st).
Proof.
  induction reads as [|[timestamp r] rest IH]; intros st Hs.
  - now split.
  - destruct (session_shape_step timestamp r st Hs) as [Hr Hs'].
    unfold result, exec in *. rewrite read_loop_cons.
    destruct (loop_body timestamp r st) as [[[]|e] st'];
      cbn [fst snd] in *; [|discriminate].
    now apply IH.
Qed.

(** Setting [running] does not touch the shape. *)
Lemma session_shape_started st :
  session_shape st -> session_shape (exec (set_running true) st).
Proof. intros H. exact H. Qed.

Lemma run_unfold reads st :
  run reads st =
  match read_loop reads (exec (set_running true) st) with
  | (o, st') =>
      match teardown st' with
      | (Return _, st'') => (o, st'')
      | (Raise e, st'') => (Raise e, st'')
      end
  end.
Proof. reflexivity. Qed.

Lemma teardown_no_file st :
  csv_file st = NoFile ->
  teardown st =
  (Return tt,
   {| csv_file := NoFile; running := false;
      sample_count := sample_count st; mode := mode st;
      csv_initialized := csv_initialized st; io_log := io_log st |}).
Proof.
  intros H. unfold teardown, set_running, bind, get, modify, ret. cbn.
  now rewrite H.
Qed.

Lemma teardown_closed st :
  csv_file st = ClosedFile ->
  teardown st =
  (Return tt,
   {| csv_file := ClosedFile; running := false;
      sample_count := sample_count st; mode := mode st;
      csv_initialized := csv_initialized st;
      io_log := (io_log st ++ [EvClose])%list |}).
Proof.
  intros H. unfold teardown, set_running, set_csv_file, emit, bind, get,
    modify, ret. cbn. now rewrite H.
Qed.

Lemma sample_rows_written rows : forall c,
  forallb (fun r => is_sample_row (EvWriteRow r)) rows = true ->
  sample_rows (written c rows) = map EvWriteRow rows.
Proof.
  unfold sample_rows.
  induction rows as [|r rows IH]; intros c H; [reflexivity|].
  cbn [forallb] in H. apply andb_prop in H as [Hr Hrows].
  cbn [written map filter]. rewrite Hr, filter_app, (IH _ Hrows).
  now destruct ((c + 1) mod 500 =? 0).
Qed.

Lemma sample_rows_header_block m : sample_rows (header_block m) = [].
Proof. now destruct m. Qed.

Lemma div500_next c :
  (c + 1) / 500 - c / 500 = if (c + 1) mod 500 =? 0 then 1 else 0.
Proof.
  destruct (Z.eqb_spec ((c + 1) mod 500) 0);
    Z.div_mod_to_equations; lia.
Qed.

(** The flushes of [n] successive [write_sample] calls: one for every
    multiple of 500 the count passes. *)
Lemma flushes_written rows : forall c,
  Z.of_nat (flushes (written c rows)) =
  (c + Z.of_nat (List.length rows)) / 500 - c / 500.
Proof.
  unfold flushes.
  induction rows as [|r rows IH]; intros c.
  - cbn. rewrite Z.add_0_r. lia.
  - cbn [written filter is_flush List.length].
    rewrite filter_app, length_app, Nat2Z.inj_add, IH.
    pose proof (div500_next c) as Hd.
    replace (c + Z.of_nat (S (List.length rows)))
      with (c + 1 + Z.of_nat (List.length rows)) by lia.
    destruct ((c + 1) mod 500 =? 0); cbn [filter is_flush List.length]; lia.
Qed.

Lemma unflushed_written rows : forall c n,
  Z.of_nat n = c mod 500 ->
  Z.of_nat (fold_left (fun k e => if is_flush e then O else S k)
                      (written c rows) n) =
  (c + Z.of_nat (List.length rows)) mod 500.
Proof.
  induction rows as [|r rows IH]; intros c n Hn.
  - cbn. now rewrite Z.add_0_r.
  - cbn [written fold_left is_flush List.length]. rewrite fold_left_app.
    replace (c + Z.of_nat (S (List.length rows)))
      with (c + 1 + Z.of_nat (List.length rows)) by lia.
    pose proof (mod500_next c) as Hm.
    destruct (Z.eqb_spec ((c + 1) mod 500) 0) as [E|E];
      cbn [fold_left is_flush]; apply IH.
    + now rewrite E.
    + destruct (Z.eqb_spec (c mod 500) 499); lia.
Qed.

Lemma teardown_cases st :
  exists st',
    teardown st = (Return tt, st') /\
    running st' = false /\
    sample_count st' = sample_count st /\
    mode st' = mode st /\
    csv_initialized st' = csv_initialized st /\
    ((csv_file st = NoFile /\ csv_file st' = NoFile /\ io_log st' = io_log st)
     \/ (csv_file st <> NoFile /\ csv_file st' = ClosedFile /\
         io_log st' = (io_log st ++ [EvClose])%list)).
Proof.
  destruct (csv_file st) eqn:Hf.
  - eexists. split; [now apply teardown_no_file|].
    cbn. repeat split. now left.
  - eexists. split; [now apply teardown_open|].
    cbn. repeat split. right. now repeat split.
  - eexists. split; [now apply teardown_closed|].
    cbn. repeat split. right. now repeat split.
Qed.

(** X1.  From a fresh logger, whatever the port delivers, no exception
    leaves the read loop or [run]: [write_sample] is never reached
    before the file is open. *)
Theorem session_never_raises reads :
  result (read_loop reads) init = Return tt /\
  result (run reads) init = Return tt.
Proof.
  split.
  - apply (session_shape_loop reads init session_shape_init).
  - unfold result. rewrite run_unfold.
    destruct (session_shape_loop reads (exec (set_running true) init)
                (session_shape_started _ session_shape_init)) as [Hr _].
    unfold result in Hr.
    destruct (read_loop reads (exec (set_running true) init)) as [o st1].
    cbn [fst] in Hr. subst o.
    destruct (teardown_cases st1) as (st2 & E & _). now rewrite E.
Qed.

(** X2.  At any point of a session, [sample_count] is the number of
    sample rows written to the file so far. *)
Theorem sample_count_counts_rows reads :
  let st := exec (read_loop reads) init in
  sample_count st = Z.of_nat (List.length (sample_rows (io_log st))).
Proof.
  intros st.
  destruct (session_shape_loop reads init session_shape_init) as [_ Hs].
  fold st in Hs.
  destruct Hs as [(_ & Hl & Hn & _)|(_ & _ & _ & m0 & rows & Hl & Hn & Hr)];
    rewrite Hl, Hn; [reflexivity|].
  unfold sample_rows. rewrite filter_app.
  fold (sample_rows (header_block m0)). fold (sample_rows (written 0 rows)).
  rewrite sample_rows_header_block, sample_rows_written by assumption.
  cbn [app]. now rewrite length_map.
Qed.

(** X3.  What [run] leaves in the file: nothing at all, the file never
    having been opened; or one open, one header, its flush, then only
    the rows of the samples with their periodic flushes, and one close
    at the very end. *)
Theorem file_layout_after_run reads :
  let st := exec (run reads) init in
  (io_log st = [] /\ csv_file st = NoFile /\ sample_count st = 0)
  \/ (exists m rows,
        io_log st = (header_block m ++ written 0 rows ++ [EvClose])%list /\
        forallb (fun r => is_sample_row (EvWriteRow r)) rows = true /\
        sample_count st = Z.of_nat (List.length rows) /\
        csv_file st = ClosedFile).
Proof.
  intros st. subst st. unfold exec. rewrite run_unfold.
  destruct (session_shape_loop reads (exec (set_running true) init)
              (session_shape_started _ session_shape_init)) as [_ Hs].
  unfold exec in Hs at 1.
  destruct (read_loop reads (exec (set_running true) init)) as [o st1].
  cbn [snd] in Hs.
  destruct (teardown_cases st1) as (st2 & E & _ & Hn & _ & _ & Hf).
  rewrite E. cbn [snd].
  destruct Hs as [(_ & Hl & Hc & _ & Hnf)|(_ & Hof & _ & m0 & rows & Hl & Hc & Hr)].
  - left. destruct Hf as [(_ & F & L)|(F & _)]; [|contradiction].
    rewrite L, Hn. now repeat split.
  - right. exists m0, rows.
    destruct Hf as [(F & _)|(_ & F & L)]; [congruence|].
    rewrite L, Hl, Hn, <- app_assoc. now repeat split.
Qed.

(** X4.  At any point of a session the file has been flushed once for
    the header, if it is there, and once more for every full 500
    samples. *)
Theorem flushes_in_session reads :
  let st := exec (read_loop reads) init in
  Z.of_nat (flushes (io_log st)) =
  (if csv_initialized st then 1 else 0) + sample_count st / 500.
Proof.
  intros st.
  destruct (session_shape_loop reads init session_shape_init) as [_ Hs].
  fold st in Hs.
  destruct Hs as [(Hi & Hl & Hn & _)|(Hi & _ & _ & m0 & rows & Hl & Hn & _)];
    rewrite Hi, Hl, Hn; [reflexivity|].
  unfold flushes. rewrite filter_app, length_app, Nat2Z.inj_add.
  fold (flushes (written 0 rows)). rewrite flushes_written.
  replace (List.length (filter is_flush (header_block m0))) with 1%nat
    by now destruct m0.
  rewrite Z.add_0_l. change (0 / 500) with 0. lia.
Qed.

(** X5.  At any point of a session the rows written since the last flush
    number [sample_count mod 500]: fewer than 500 rows ever wait in the
    buffer. *)
Theorem unflushed_rows_bounded reads :
  let st := exec (read_loop reads) init in
  Z.of_nat (unflushed (io_log st)) = sample_count st mod 500 /\
  (unflushed (io_log st) < 500)%nat.
Proof.
  intros st.
  assert (H : Z.of_nat (unflushed (io_log st)) = sample_count st mod 500).
  { destruct (session_shape_loop reads init session_shape_init) as [_ Hs].
    fold st in Hs.
    destruct Hs as [(_ & Hl & Hn & _)|(_ & _ & _ & m0 & rows & Hl & Hn & _)];
      rewrite Hl, Hn; [reflexivity|].
    unfold unflushed. rewrite fold_left_app.
    replace (fold_left _ (header_block m0) O) with O by now destruct m0.
    now rewrite unflushed_written. }
  split; [assumption|].
  pose proof (Z.mod_pos_bound (sample_count st) 500). lia.
Qed.

Lemma run_ends reads st :
  running (exec (run reads) st) = false /\
  (csv_file (exec (run reads) st) = NoFile
   \/ (csv_file (exec (run reads) st) = ClosedFile /\
       exists log, io_log (exec (run reads) st) = (log ++ [EvClose])%list)).
Proof.
  unfold exec. rewrite run_unfold.
  destruct (read_loop reads (exec (set_running true) st)) as [o st1].
  destruct (teardown_cases st1) as (st2 & E & Hr & _ & _ & _ & Hf).
  rewrite E. cbn [snd]. split; [assumption|].
  destruct Hf as [(_ & F & _)|(_ & F & L)]; [now left|].
  right. split; [assumption|]. now exists (io_log st1).
Qed.

(** X6.  Whatever the state [run] starts in and whatever happens in the
    loop, also when an exception leaves it, [run] ends with [running]
    cleared and the file not open: it was never opened, or it is closed
    and the close is the last call on it. *)
Theorem run_always_closes reads st :
  let st' := exec (run reads) st in
  running st' = false /\
  (csv_file st' = NoFile
   \/ (csv_file st' = ClosedFile /\
       exists log, io_log st' = (log ++ [EvClose])%list)).
Proof. exact (run_ends reads st). Qed.

(** X7.  Timeouts, bytes that do not decode, blank lines, comments and
    lines with neither five fields nor eleven or more leave the logger
    as it is, in any state; after a session made of them alone no file
    was created: no call on the file, no mode, no header, no sample. *)
Theorem idle_reads_change_nothing reads :
  forallb is_idle_read reads = true ->
  (forall st, read_loop reads st = (Return tt, st)) /\
  (let st := exec (run reads) init in
   io_log st = [] /\ csv_file st = NoFile /\ sample_count st = 0 /\
   mode st = None /\ csv_initialized st = false).
Proof.
  intros Hall.
  assert (H : forall st, read_loop reads st = (Return tt, st)).
  { induction reads as [|[timestamp r] rest IH]; intros st; [reflexivity|].
    cbn [forallb] in Hall. apply andb_prop in Hall as [Hr Hrest].
    rewrite read_loop_cons.
    assert (E : loop_body timestamp r st = (Return tt, st)).
    { unfold is_idle_read in Hr. cbn [snd] in Hr.
      destruct r as [| |raw_text]; cbn [loop_body]; try reflexivity.
      destruct (String.eqb (strip raw_text) ""); [reflexivity|].
      cbn [orb] in Hr. apply orb_prop in Hr as [Hr|Hr].
      - unfold process_line. now rewrite Hr.
      - apply andb_prop in Hr as [N5 L10].
        apply negb_true_iff, Nat.eqb_neq in N5. apply Nat.leb_le in L10.
        now apply process_line_dropped. }
    rewrite E. now apply IH. }
  split; [assumption|].
  cbn zeta. unfold exec. rewrite run_unfold, H. cbn. now repeat split.
Qed.

Lemma idle_reads_change_nothing_witness :
  let st :=
    exec (run [("t0", ReadTimeout); ("t1", ReadUndecodable);
               ("t2", ReadText "   "); ("t3", ReadText "#debug start");
               ("t4", ReadText "1,2,3"); ("t5", ReadText "1,2,3,4,5,6,7")])
         init in
  io_log st = [] /\ csv_file st = NoFile /\ sample_count st = 0 /\
  mode st = None /\ csv_initialized st = false.
Proof.
  exact (proj2 (idle_reads_change_nothing
                  [("t0", ReadTimeout); ("t1", ReadUndecodable);
                   ("t2", ReadText "   "); ("t3", ReadText "#debug start");
                   ("t4", ReadText "1,2,3"); ("t5", ReadText "1,2,3,4,5,6,7")]
                  eq_refl)).
Defined.






(** X9.  A call of [process_line] only ever appends to the file: what was
    written stays, [sample_count] goes up by one or stays, and the header
    latch, once set, stays set. *)
Theorem process_line_appends timestamp line st :
  consistent st = true ->
  let st' := exec (process_line timestamp line) st in
  (exists tail, io_log st' = (io_log st ++ tail)%list) /\
  (sample_count st' = sample_count st \/
   sample_count st' = sample_count st + 1) /\
  (csv_initialized st = true -> csv_initialized st' = true) /\
  running st' = running st.
Proof.
  intros Hc st'. subst st'. unfold exec.
  destruct (process_line_cases timestamp line st Hc)
    as [E|[(m & _ & E)|(m & vs & _ & _ & E)]]; rewrite E; cbn [snd].
  - split; [exists []; now rewrite app_nil_r|]. split; [now left|]. now split.
  - split; [eexists; reflexivity|]. split; [now left|]. now split.
  - split; [eexists; reflexivity|]. split; [now right|]. now split.
Qed.

Lemma process_line_appends_witness :
  let st := exec (process_line "t0" "1,2,3,4,5") init in
  let st' := exec (process_line "t1" "7,8,9,a,b") st in
  (exists tail, io_log st' = (io_log st ++ tail)%list) /\
  (sample_count st' = sample_count st \/
   sample_count st' = sample_count st + 1) /\
  (csv_initialized st = true -> csv_initialized st' = true) /\
  running st' = running st.
Proof.
  apply (process_line_appends "t1" "7,8,9,a,b"). reflexivity.
Defined.

End LoggerSessions.

(* ===================================================================== *)
(** ** The gateway over whole runs *)
(* ===================================================================== *)

Section GatewayRuns.

Import PyText Gateway.

Variable cfg : Config.

Lemma main_line_mic_zero now line st f fs samples :
  MIC_PUBLISH_EVERY_N cfg = 0 ->
  split comma line = "M" :: f :: fs ->
  ints (f :: fs) = Some samples ->
  main_line cfg now line st = (Raise ZeroDivisionError, st).
Proof.
  intros HN Hs Hi. unfold main_line. rewrite Hs.
  cbn [nth List.length skipn].
  cbn [String.eqb Ascii.eqb Bool.eqb Nat.eqb Nat.ltb Nat.leb andb].
  unfold ints_, py_mod, bind, ret, get, raise, try_except.
  rewrite Hi, HN. reflexivity.
Qed.

Lemma main_line_other_tag now line st tag rest :
  split comma line = tag :: rest ->
  tag <> "A" -> tag <> "M" ->
  main_line cfg now line st = (Return tt, st).
Proof.
  intros Hs NA NM. unfold main_line. rewrite Hs. cbn [nth].
  apply String.eqb_neq in NA, NM. now rewrite NA, NM.
Qed.

Lemma main_line_mic_alone now line st :
  split comma line = ["M"] ->
  main_line cfg now line st = (Return tt, st).
Proof. intros Hs. unfold main_line. now rewrite Hs. Qed.

(** Every read falls in one of four classes, and the class decides what
    the turn does. *)
Lemma main_loop_body_class now r st :
  (is_error_read (now, r) = true ->
   main_loop_body cfg now r st = (Return tt, errored st))
  /\
  (is_accel_read (now, r) = true ->
   exists x y z,
     main_loop_body cfg now r st = (Return tt, accel_taken cfg now x y z st))
  /\
  (is_mic_read (now, r) = true ->
   (MIC_PUBLISH_EVERY_N cfg <> 0 ->
    exists samples,
      main_loop_body cfg now r st = (Return tt, mic_taken cfg samples st)) /\
   (MIC_PUBLISH_EVERY_N cfg = 0 ->
    main_loop_body cfg now r st = (Raise ZeroDivisionError, st)))
  /\
  (is_error_read (now, r) = false -> is_accel_read (now, r) = false ->
   is_mic_read (now, r) = false ->
   main_loop_body cfg now r st = (Return tt, st)).
Proof.
  unfold is_error_read, is_accel_read, is_mic_read. cbn [snd].
  destruct r as [| |raw_text]; cbn [main_loop_body].
  - repeat split; try discriminate; reflexivity.
  - repeat split; try discriminate; reflexivity.
  - destruct (String.eqb_spec (strip raw_text) "") as [E|_].
    { rewrite E. repeat split; try discriminate; reflexivity. }
    destruct (split comma (strip raw_text)) as [|tag rest] eqn:Hs.
    { now apply split_nonempty in Hs. }
    destruct (String.eqb_spec tag "A") as [->|NA].
    + (* tag A *)
      destruct rest as [|a [|b [|c [|d rest]]]];
        try (rewrite (main_line_accel_arity cfg now _ st _ Hs)
               by (cbn; lia);
             repeat split; try discriminate; reflexivity).
      cbn [String.eqb Ascii.eqb Bool.eqb List.length Nat.eqb andb orb].
      destruct (ints [a; b; c]) as [vs|] eqn:Hi.
      * pose proof (ints_length _ _ Hi) as L.
        destruct vs as [|x [|y [|z [|? ?]]]]; try discriminate L.
        cbn [ints] in Hi.
        destruct (int a) eqn:Ha; [|discriminate].
        destruct (int b) eqn:Hb; [|discriminate].
        destruct (int c) eqn:Hc; [|discriminate].
        injection Hi as -> -> ->.
        rewrite (main_line_accel cfg now _ st a b c x y z Hs Ha Hb Hc).
        repeat split; try discriminate. intros _. now exists x, y, z.
      * rewrite (main_line_accel_bad cfg now _ st a b c Hs Hi).
        repeat split; try discriminate.
    + destruct (String.eqb_spec tag "M") as [->|NM].
      * (* tag M *)
        destruct rest as [|f fs].
        { rewrite (main_line_mic_alone now _ st Hs).
          repeat split; try discriminate; reflexivity. }
        cbn [String.eqb Ascii.eqb Bool.eqb andb orb].
        destruct (ints (f :: fs)) as [samples|] eqn:Hi.
        -- repeat split; try discriminate.
           ++ destruct fs as [|? [|? [|? ?]]]; discriminate.
           ++ intros HN. exists samples.
              now apply (main_line_mic cfg now _ st f fs).
           ++ intros HN. now apply (main_line_mic_zero now _ st f fs samples).
        -- rewrite (main_line_mic_bad cfg now _ st f fs Hs Hi).
           repeat split; try discriminate.
           destruct fs as [|? [|? [|? ?]]]; discriminate.
      * (* another tag *)
        rewrite (main_line_other_tag now _ st tag rest Hs NA NM).
        apply String.eqb_neq in NA, NM.
        destruct rest as [|f [|? [|? [|? ?]]]];
          rewrite ?NA, ?NM; cbn [andb orb];
          repeat split; try discriminate; reflexivity.
Qed.

Lemma main_loop_cons now r rest st :
  main_loop cfg ((now, r) :: rest) st =
  match main_loop_body cfg now r st with
  | (Return _, st') => main_loop cfg rest st'
  | (Raise e, st') => (Raise e, st')
  end.
Proof. reflexivity. Qed.

(** The ways a turn can end, whatever the read. *)
Lemma main_loop_body_cases now r st :
  main_loop_body cfg now r st = (Return tt, st)
  \/ main_loop_body cfg now r st = (Return tt, errored st)
  \/ (exists x y z,
        main_loop_body cfg now r st =
        (Return tt, accel_taken cfg now x y z st))
  \/ (exists samples,
        main_loop_body cfg now r st = (Return tt, mic_taken cfg samples st))
  \/ main_loop_body cfg now r st = (Raise ZeroDivisionError, st).
Proof.
  destruct (main_loop_body_class now r st) as (He & Ha & Hm & Hn).
  destruct (is_error_read (now, r)); [right; left; now apply He|].
  destruct (is_accel_read (now, r)); [right; right; left; now apply Ha|].
  destruct (is_mic_read (now, r)); [|left; now apply Hn].
  destruct (Hm eq_refl) as [H1 H0].
  destruct (Z.eq_dec (MIC_PUBLISH_EVERY_N cfg) 0) as [E|E].
  - do 4 right. now apply H0.
  - do 3 right; left. now apply H1.
Qed.

Lemma accel_indices_app l1 l2 :
  accel_indices (l1 ++ l2) = (accel_indices l1 ++ accel_indices l2)%list.
Proof. unfold accel_indices. now rewrite flat_map_app. Qed.

Lemma sorted_snoc l : forall x,
  StronglySorted Z.lt l -> Forall (fun i => i < x) l ->
  StronglySorted Z.lt (l ++ [x]).
Proof.
  induction l as [|a l IH]; intros x Hs Hf; cbn [app].
  - repeat constructor.
  - inversion Hs as [|? ? Hs' Ha]; subst.
    inversion Hf as [|? ? Hax Hf']; subst.
    constructor; [now apply IH|].
    apply Forall_app. split; [assumption|]. now repeat constructor.
Qed.

Lemma counters_agree_init : counters_agree Gateway.init.
Proof.
  unfold counters_agree. cbn. repeat split; try constructor; lia.
Qed.

Lemma counters_agree_errored st :
  counters_agree st -> counters_agree (errored st).
Proof.
  unfold counters_agree, errored. cbn.
  intros (H1 & H2 & H3 & H4 & H5 & H6 & H7 & H8 & H9).
  repeat split; try assumption; lia.
Qed.

Lemma counters_agree_accel_taken now x y z st :
  counters_agree st -> counters_agree (accel_taken cfg now x y z st).
Proof.
  unfold counters_agree, accel_taken.
  intros (H1 & H2 & H3 & H4 & H5 & H6 & H7 & H8 & H9).
  assert (H0 : 0 <= accel_idx st).
  { pose proof (Nat2Z.is_nonneg
                  (List.length (accel_indices (published st)))). lia. }
  destruct (Qle_bool _ _);
    cbn [accel_idx mic_batch stats published accel mic errors bump_accel].
  - rewrite accel_indices_app, mic_batches_app, !length_app.
    cbn [accel_indices mic_batches flat_map app List.length].
    rewrite !app_nil_r, Nat.add_0_r.
    split; [lia|]. split; [assumption|]. split.
    { apply Forall_app. split.
      - eapply Forall_impl; [|exact H3]. cbn. intros; lia.
      - repeat constructor; lia. }
    split; [assumption|]. split.
    { apply sorted_snoc; [assumption|].
      eapply Forall_impl; [|exact H3]. cbn. intros; lia. }
    split; [assumption|]. repeat split; try assumption; lia.
  - split; [assumption|]. split; [assumption|]. split.
    { eapply Forall_impl; [|exact H3]. cbn. intros; lia. }
    repeat split; try assumption; lia.
Qed.

Lemma counters_agree_mic_taken samples st :
  counters_agree st -> counters_agree (mic_taken cfg samples st).
Proof.
  unfold counters_agree, mic_taken.
  intros (H1 & H2 & H3 & H4 & H5 & H6 & H7 & H8 & H9).
  assert (H0 : 0 <= mic_batch st).
  { pose proof (Nat2Z.is_nonneg
                  (List.length (mic_batches (published st)))). lia. }
  destruct (_ =? 0);
    cbn [accel_idx mic_batch stats published accel mic errors bump_mic].
  - rewrite accel_indices_app, mic_batches_app, !length_app.
    cbn [accel_indices mic_batches flat_map app List.length].
    rewrite !app_nil_r, Nat.add_0_r.
    split; [assumption|]. split; [lia|]. split; [assumption|]. split.
    { apply Forall_app. split.
      - eapply Forall_impl; [|exact H4]. cbn. intros; lia.
      - repeat constructor; lia. }
    split; [assumption|]. split.
    { apply sorted_snoc; [assumption|].
      eapply Forall_impl; [|exact H4]. cbn. intros; lia. }
    repeat split; try assumption; lia.
  - split; [assumption|]. split; [assumption|]. split; [assumption|]. split.
    { eapply Forall_impl; [|exact H4]. cbn. intros; lia. }
    repeat split; try assumption; lia.
Qed.

Lemma counters_agree_step now r st :
  counters_agree st -> counters_agree (exec (main_loop_body cfg now r) st).
Proof.
  intros H. unfold exec.
  destruct (main_loop_body_cases now r st)
    as [E|[E|[(x & y & z & E)|[(samples & E)|E]]]]; rewrite E; cbn [snd].
  - assumption.
  - now apply counters_agree_errored.
  - now apply counters_agree_accel_taken.
  - now apply counters_agree_mic_taken.
  - assumption.
Qed.

Lemma counters_agree_loop reads : forall st,
  counters_agree st -> counters_agree (exec (main_loop cfg reads) st).
Proof.
  induction reads as [|[now r] rest IH]; intros st H; [assumption|].
  pose proof (counters_agree_step now r st H) as H'.
  unfold exec in *. rewrite main_loop_cons.
  destruct (main_loop_body cfg now r st) as [[[]|e] st']; cbn [snd] in *.
  - now apply IH.
  - assumption.
Qed.

End GatewayRuns.

Section GatewayRunProperties.

Import PyText Gateway.

Lemma published_split (l : list publication) :
  List.length l =
  (List.length (accel_indices l) + List.length (mic_batches l))%nat.
Proof.
  unfold accel_indices, mic_batches.
  induction l as [|p l IH]; [reflexivity|].
  cbn [flat_map List.length]. rewrite !length_app.
  destruct p; cbn [List.length]; lia.
Qed.

(** X10.  After any run of the loop, also one that an exception ends, the
    counters agree with what was published: [stats["accel"]] and
    [stats["mic"]] are the numbers of messages on the two topics, and
    neither exceeds the number of lines taken ([accel_idx],
    [mic_batch]). *)
Theorem stats_count_publications cfg reads :
  let st := exec (main_loop cfg reads) Gateway.init in
  accel (stats st) = Z.of_nat (List.length (accel_indices (published st))) /\
  mic (stats st) = Z.of_nat (List.length (mic_batches (published st))) /\
  Z.of_nat (List.length (published st)) = accel (stats st) + mic (stats st) /\
  accel (stats st) <= accel_idx st /\
  mic (stats st) <= mic_batch st.
Proof.
  intros st.
  destruct (counters_agree_loop cfg reads _ counters_agree_init)
    as (H1 & H2 & _ & _ & _ & _ & H7 & H8 & _).
  fold st in H1, H2, H7, H8.
  repeat split; try assumption.
  rewrite H1, H2, (published_split (published st)). lia.
Qed.

(** X11.  The sample numbers published on the accelerometer topic
    strictly increase and are numbers of lines already taken; so do the
    batch numbers on the microphone topic: no number is published
    twice or out of order. *)
Theorem published_numbers_increase cfg reads :
  let st := exec (main_loop cfg reads) Gateway.init in
  StronglySorted Z.lt (accel_indices (published st)) /\
  Forall (fun i => 0 <= i < accel_idx st) (accel_indices (published st)) /\
  StronglySorted Z.lt (mic_batches (published st)) /\
  Forall (fun b => 0 <= b < mic_batch st) (mic_batches (published st)).
Proof.
  intros st.
  destruct (counters_agree_loop cfg reads _ counters_agree_init)
    as (_ & _ & H3 & H4 & H5 & H6 & _).
  now repeat split.
Qed.

Lemma main_loop_body_returns cfg now r st :
  is_mic_read (now, r) = false \/ MIC_PUBLISH_EVERY_N cfg <> 0 ->
  result (main_loop_body cfg now r) st = Return tt.
Proof.
  intros H. unfold result.
  destruct (main_loop_body_class cfg now r st) as (He & Ha & Hm & Hn).
  destruct (is_error_read (now, r)); [now rewrite He|].
  destruct (is_accel_read (now, r)).
  { destruct (Ha eq_refl) as (x & y & z & E). now rewrite E. }
  destruct (is_mic_read (now, r)); [|now rewrite Hn].
  destruct H as [H|H]; [discriminate|].
  destruct (proj1 (Hm eq_refl) H) as (samples & E). now rewrite E.
Qed.

Lemma main_loop_returns cfg reads : forall st,
  MIC_PUBLISH_EVERY_N cfg <> 0 ->
  result (main_loop cfg reads) st = Return tt.
Proof.
  induction reads as [|[now r] rest IH]; intros st HN; [reflexivity|].
  pose proof (main_loop_body_returns cfg now r st (or_intror HN)) as Hr.
  unfold result in *. rewrite main_loop_cons.
  destruct (main_loop_body cfg now r st) as [[[]|e] st'];
    cbn [fst] in *; [now apply IH|discriminate].
Qed.

(** X12.  The loop lets an exception out in one case only: the
    decimation constant is zero and a microphone line with integer
    values arrives; the exception is then [ZeroDivisionError].  With a
    non-zero constant every run returns. *)
Theorem loop_raises_only_on_zero_decimation cfg reads st :
  (MIC_PUBLISH_EVERY_N cfg <> 0 ->
   result (main_loop cfg reads) st = Return tt)
  /\
  (MIC_PUBLISH_EVERY_N cfg = 0 ->
   (existsb is_mic_read reads = false ->
    result (main_loop cfg reads) st = Return tt) /\
   (existsb is_mic_read reads = true ->
    result (main_loop cfg reads) st = Raise ZeroDivisionError)).
Proof.
  split.
  - now apply main_loop_returns.
  - intros HN. revert st.
    induction reads as [|[now r] rest IH]; intros st.
    { split; [reflexivity|discriminate]. }
    cbn [existsb]. unfold result in *. rewrite main_loop_cons.
    destruct (is_mic_read (now, r)) eqn:Hm; cbn [orb].
    + split; [discriminate|]. intros _.
      destruct (main_loop_body_class cfg now r st) as (_ & _ & H & _).
      now rewrite (proj2 (H Hm) HN).
    + pose proof (main_loop_body_returns cfg now r st (or_introl Hm)) as Hr.
      unfold result in Hr.
      destruct (main_loop_body cfg now r st) as [[[]|e] st'];
        cbn [fst] in *; [apply IH|discriminate].
Qed.

Lemma loop_raises_only_on_zero_decimation_witness :
  result (main_loop config
            [(1%Q, ReadText "M,1,2"); (2%Q, ReadText "A,1,2,3")])
         Gateway.init = Return tt
  /\
  result (main_loop {| ACCEL_PUBLISH_INTERVAL := 1 # 100;
                       MIC_PUBLISH_EVERY_N := 0 |}
            [(1%Q, ReadText "A,1,2,3"); (2%Q, ReadText "M,1,2");
             (3%Q, ReadText "A,4,5,6")])
         Gateway.init = Raise ZeroDivisionError.
Proof.
  split.
  - apply (proj1 (loop_raises_only_on_zero_decimation config _ Gateway.init)).
    discriminate.
  - apply (proj2 (loop_raises_only_on_zero_decimation
                    {| ACCEL_PUBLISH_INTERVAL := 1 # 100;
                       MIC_PUBLISH_EVERY_N := 0 |}
                    [(1%Q, ReadText "A,1,2,3"); (2%Q, ReadText "M,1,2");
                     (3%Q, ReadText "A,4,5,6")] Gateway.init));
      reflexivity.
Defined.

(** What the turns count, by class of read. *)
Lemma main_loop_body_counts cfg now r st :
  MIC_PUBLISH_EVERY_N cfg <> 0 ->
  let st' := exec (main_loop_body cfg now r) st in
  errors (stats st') =
    errors (stats st) + (if is_error_read (now, r) then 1 else 0) /\
  accel_idx st' = accel_idx st + (if is_accel_read (now, r) then 1 else 0) /\
  mic_batch st' = mic_batch st + (if is_mic_read (now, r) then 1 else 0).
Proof.
  intros HN st'. subst st'. unfold exec.
  destruct (main_loop_body_class cfg now r st) as (He & Ha & Hm & Hn).
  assert (Hexcl : is_error_read (now, r) = true ->
                  is_accel_read (now, r) = false /\
                  is_mic_read (now, r) = false).
  { unfold is_error_read, is_accel_read, is_mic_read. cbn [snd].
    destruct r as [| |raw_text]; [discriminate|now split|].
    destruct (split comma (strip raw_text)) as [|tag [|f fs]];
      try discriminate.
    destruct (ints (f :: fs)) eqn:Hi; [now rewrite andb_false_r|].
    intros _. rewrite andb_false_r.
    destruct fs as [|b [|c [|? ?]]]; try now split.
    cbn [ints] in Hi |- *.
    destruct (int f); [|now rewrite andb_false_r].
    destruct (int b); [|now rewrite andb_false_r].
    destruct (int c); [discriminate|].
    now rewrite andb_false_r. }
  assert (Hexcl2 : is_accel_read (now, r) = true ->
                   is_mic_read (now, r) = false).
  { unfold is_accel_read, is_mic_read. cbn [snd].
    destruct r as [| |raw_text]; try discriminate.
    destruct (split comma (strip raw_text)) as [|tag [|a [|b [|c [|? ?]]]]];
      try discriminate.
    intros H. apply andb_prop in H as [Ht _].
    apply String.eqb_eq in Ht. subst tag. reflexivity. }
  destruct (is_error_read (now, r)) eqn:Ee.
  { destruct (Hexcl eq_refl) as [-> ->]. rewrite (He eq_refl).
    cbn. repeat split; lia. }
  destruct (is_accel_read (now, r)) eqn:Ea.
  { rewrite (Hexcl2 eq_refl). destruct (Ha eq_refl) as (x & y & z & E).
    rewrite E. cbn [snd]. unfold accel_taken.
    destruct (Qle_bool _ _); cbn; repeat split; lia. }
  destruct (is_mic_read (now, r)) eqn:Em.
  { destruct (proj1 (Hm eq_refl) HN) as (samples & E).
    rewrite E. cbn [snd]. unfold mic_taken.
    destruct (_ =? 0); cbn; repeat split; lia. }
  rewrite (Hn eq_refl eq_refl eq_refl). cbn [snd]. repeat split; lia.
Qed.

(** X13.  Over a run with a non-zero decimation constant the counters
    count the reads by class: [stats["errors"]] the reads that do not
    decode and the [A] lines of four fields and [M] lines of two or more
    with a field that is no integer; [accel_idx] the [A] lines of three
    integers; [mic_batch] the [M] lines of integers.  Nothing else is
    counted as an error: not a line with another tag, nor an [A] line
    with another number of fields. *)
Theorem counters_count_reads cfg reads st :
  MIC_PUBLISH_EVERY_N cfg <> 0 ->
  let st' := exec (main_loop cfg reads) st in
  errors (stats st') =
    errors (stats st) + Z.of_nat (List.length (filter is_error_read reads)) /\
  accel_idx st' =
    accel_idx st + Z.of_nat (List.length (filter is_accel_read reads)) /\
  mic_batch st' =
    mic_batch st + Z.of_nat (List.length (filter is_mic_read reads)).
Proof.
  intros HN st'. subst st'. revert st.
  induction reads as [|[now r] rest IH]; intros st.
  { cbn. repeat split; lia. }
  destruct (main_loop_body_counts cfg now r st HN) as (H1 & H2 & H3).
  pose proof (main_loop_body_returns cfg now r st (or_intror HN)) as Hr.
  unfold exec, result in *. rewrite main_loop_cons.
  destruct (main_loop_body cfg now r st) as [[[]|e] st1];
    cbn [fst snd] in *; [|discriminate].
  destruct (IH st1) as (I1 & I2 & I3).
  rewrite I1, I2, I3, H1, H2, H3. cbn [filter].
  destruct (is_error_read (now, r)), (is_accel_read (now, r)),
    (is_mic_read (now, r)); cbn [List.length]; repeat split; lia.
Qed.

Lemma counters_count_reads_witness :
  let reads :=
    [(1%Q, ReadText "A,1,2,3"); (1%Q, ReadText "A,1,x,3");
     (1%Q, ReadText "A,1,2"); (1%Q, ReadText "100,200,300,5,9");
     (1%Q, ReadUndecodable); (1%Q, ReadText "M,5,6");
     (1%Q, ReadText "M,"); (1%Q, ReadText "M")] in
  let st' := exec (main_loop config reads) Gateway.init in
  errors (stats st') = 3 /\ accel_idx st' = 1 /\ mic_batch st' = 1.
Proof.
  intros reads st'.
  assert (HN : MIC_PUBLISH_EVERY_N config <> 0) by discriminate.
  exact (counters_count_reads config reads Gateway.init HN).
Defined.

Lemma batch_numbers_snoc first n :
  batch_numbers first (S n) =
  (batch_numbers first n ++ [first + Z.of_nat n])%list.
Proof.
  unfold batch_numbers. now rewrite seq_S, map_app.
Qed.

(** X14.  With the decimation constant at 1, as the file ships it, every
    microphone line taken is published: after any run [stats["mic"]]
    equals [mic_batch] and the batch numbers published are 0, 1, ...,
    [mic_batch - 1] without a gap. *)
Theorem every_batch_published_by_default cfg reads :
  MIC_PUBLISH_EVERY_N cfg = 1 ->
  let st := exec (main_loop cfg reads) Gateway.init in
  result (main_loop cfg reads) Gateway.init = Return tt /\
  mic (stats st) = mic_batch st /\
  mic_batches (published st) = batch_numbers 0 (Z.to_nat (mic_batch st)).
Proof.
  intros H1 st.
  assert (HN : MIC_PUBLISH_EVERY_N cfg <> 0) by (rewrite H1; discriminate).
  split.
  { now apply main_loop_returns. }
  subst st.
  assert (Hinv : forall rs s,
             (mic (stats s) = mic_batch s /\
              0 <= mic_batch s /\
              mic_batches (published s) =
              batch_numbers 0 (Z.to_nat (mic_batch s))) ->
             let s' := exec (main_loop cfg rs) s in
             mic (stats s') = mic_batch s' /\
             0 <= mic_batch s' /\
             mic_batches (published s') =
             batch_numbers 0 (Z.to_nat (mic_batch s'))).
  { induction rs as [|[now r] rest IH]; intros s Hs; [exact Hs|].
    cbn zeta. unfold exec. rewrite main_loop_cons.
    assert (Hstep : let s1 := snd (main_loop_body cfg now r s) in
                    mic (stats s1) = mic_batch s1 /\
                    0 <= mic_batch s1 /\
                    mic_batches (published s1) =
                    batch_numbers 0 (Z.to_nat (mic_batch s1))).
    { destruct Hs as (Ha & Hb & Hc).
      destruct (main_loop_body_cases cfg now r s)
        as [E|[E|[(x & y & z & E)|[(samples & E)|E]]]]; rewrite E; cbn [snd].
      - now repeat split.
      - now repeat split.
      - unfold accel_taken. destruct (Qle_bool _ _);
          cbn [stats mic mic_batch published bump_accel].
        + rewrite mic_batches_app. cbn [mic_batches flat_map].
          rewrite app_nil_r. now repeat split.
        + now repeat split.
      - unfold mic_taken. rewrite H1, Z.mod_1_r. cbn [Z.eqb].
        cbn [stats mic mic_batch published bump_mic].
        rewrite mic_batches_app. cbn [mic_batches flat_map app].
        split; [lia|]. split; [lia|].
        replace (Z.to_nat (mic_batch s + 1)) with (S (Z.to_nat (mic_batch s)))
          by lia.
        rewrite batch_numbers_snoc, Hc. f_equal. f_equal. lia.
      - now repeat split. }
    destruct (main_loop_body cfg now r s) as [[[]|e] s1]; cbn [snd] in *.
    - now apply IH.
    - exact Hstep. }
  destruct (Hinv reads Gateway.init) as (Ha & _ & Hc).
  { cbn. repeat split. lia. }
  now split.
Qed.

Lemma every_batch_published_by_default_witness :
  let reads :=
    [(1%Q, ReadText "M,1,2"); (1%Q, ReadText "A,1,2,3");
     (1%Q, ReadText "M,x"); (1%Q, ReadText "M,7")] in
  let st := exec (main_loop config reads) Gateway.init in
  mic (stats st) = mic_batch st /\
  mic_batches (published st) = batch_numbers 0 (Z.to_nat (mic_batch st)).
Proof.
  intros reads st.
  exact (proj2 (every_batch_published_by_default config reads eq_refl)).
Defined.

(** X15.  A line the gateway does not recognise is passed over without a
    trace, and is not counted as an error: a first field other than [A]
    and [M] (so every line in the format of the logger), an [A] line
    without exactly three more fields, a bare [M]. *)
Theorem unrecognised_lines_ignored cfg now line st tag rest :
  split comma line = tag :: rest ->
  (tag <> "A" /\ tag <> "M")
  \/ (tag = "A" /\ List.length rest <> 3%nat)
  \/ (tag = "M" /\ rest = []) ->
  main_line cfg now line st = (Return tt, st).
Proof.
  intros Hs [[NA NM]|[[-> L]|[-> ->]]].
  - now apply (main_line_other_tag cfg now line st tag rest).
  - now apply (main_line_accel_arity cfg now line st rest).
  - now apply main_line_mic_alone.
Qed.

Lemma unrecognised_lines_ignored_witness :
  main_line config 1 "100,200,300,5,9" Gateway.init = (Return tt, Gateway.init)
  /\ main_line config 1 "A,1,2" Gateway.init = (Return tt, Gateway.init)
  /\ main_line config 1 "M" Gateway.init = (Return tt, Gateway.init).
Proof.
  split; [|split].
  - apply (unrecognised_lines_ignored config 1%Q "100,200,300,5,9"
             Gateway.init "100" ["200"; "300"; "5"; "9"] eq_refl).
    left. split; discriminate.
  - apply (unrecognised_lines_ignored config 1%Q "A,1,2"
             Gateway.init "A" ["1"; "2"] eq_refl).
    right; left. split; [reflexivity|discriminate].
  - apply (unrecognised_lines_ignored config 1%Q "M"
             Gateway.init "M" [] eq_refl).
    right; right. now split.
Defined.

Lemma monotonic_skip a b clock :
  monotonic (a :: b :: clock) = true -> monotonic (a :: clock) = true.
Proof.
  intros H. destruct (monotonic_cons _ _ H) as [Hf Hm].
  destruct clock as [|c clock]; [reflexivity|].
  cbn [monotonic] in *. apply andb_prop in Hm as [_ Hm].
  rewrite Hm, andb_true_r. apply Qle_bool_iff.
  inversion Hf as [|? ? _ Hf']; subst. now inversion Hf'.
Qed.

(** X16.  With an interval of zero (or less) the time gate is always
    open: when the clock readings never decrease and none precedes
    [last_accel_publish], every accelerometer sample taken is published,
    so [stats["accel"]] advances as [accel_idx] does. *)
Theorem zero_interval_publishes_every_sample cfg reads : forall st,
  (ACCEL_PUBLISH_INTERVAL cfg <= 0)%Q ->
  monotonic (last_accel_publish st :: map fst reads) = true ->
  let st' := exec (main_loop cfg reads) st in
  accel (stats st') - accel (stats st) = accel_idx st' - accel_idx st.
Proof.
  induction reads as [|[now r] rest IH]; intros st HI Hm; [cbn; lia|].
  cbn zeta. unfold exec. rewrite main_loop_cons.
  cbn [map fst] in Hm.
  assert (Hnow : (last_accel_publish st <= now)%Q).
  { cbn [monotonic] in Hm. apply andb_prop in Hm as [H _].
    now apply Qle_bool_iff. }
  assert (Hstep : let s1 := snd (main_loop_body cfg now r st) in
                  accel (stats s1) - accel (stats st) =
                  accel_idx s1 - accel_idx st /\
                  (last_accel_publish s1 = last_accel_publish st \/
                   last_accel_publish s1 = now)).
  { destruct (main_loop_body_cases cfg now r st)
      as [E|[E|[(x & y & z & E)|[(samples & E)|E]]]]; rewrite E; cbn [snd].
    - split; [lia|now left].
    - split; [cbn; lia|now left].
    - unfold accel_taken.
      assert (G : Qle_bool (ACCEL_PUBLISH_INTERVAL cfg)
                           (now - last_accel_publish st) = true).
      { apply Qle_bool_iff. lra. }
      rewrite G. cbn. split; [lia|now right].
    - unfold mic_taken. destruct (_ =? 0); cbn; (split; [lia|now left]).
    - split; [lia|now left]. }
  destruct (main_loop_body cfg now r st) as [[[]|e] s1]; cbn [snd] in *.
  - destruct Hstep as [Hd Hl].
    assert (Hm' : monotonic (last_accel_publish s1 :: map fst rest) = true).
    { destruct Hl as [-> | ->].
      - now apply monotonic_skip with now.
      - now apply monotonic_cons in Hm. }
    specialize (IH s1 HI Hm'). cbn zeta in IH. unfold exec in IH. lia.
  - apply Hstep.
Qed.

Lemma zero_interval_publishes_every_sample_witness :
  let cfg := {| ACCEL_PUBLISH_INTERVAL := 0; MIC_PUBLISH_EVERY_N := 1 |} in
  let reads :=
    [(5%Q, ReadText "A,1,2,3"); (5%Q, ReadText "A,4,5,6");
     (5%Q, ReadText "M,9"); (6%Q, ReadText "A,7,8,9")] in
  let st' := exec (main_loop cfg reads) Gateway.init in
  accel (stats st') - accel (stats Gateway.init) =
  accel_idx st' - accel_idx Gateway.init.
Proof.
  intros cfg reads.
  apply (zero_interval_publishes_every_sample cfg reads Gateway.init).
  - cbn. apply Qle_refl.
  - reflexivity.
Defined.

Lemma last_default {A} (L : list A) : forall c a b,
  last (c :: L) a = last (c :: L) b.
Proof.
  induction L as [|d L IH]; intros c a b; [reflexivity|].
  change (last (d :: L) a = last (d :: L) b). apply IH.
Qed.

Lemma spaced_span (I : Q) L : forall a,
  ForallOrdPairs (fun x y => (I <= y - x)%Q) (a :: L) ->
  (inject_Z (Z.of_nat (List.length L)) * I <= last L a - a)%Q.
Proof.
  induction L as [|b L IH]; intros a H.
  - change (inject_Z (Z.of_nat (List.length (@nil Q)))) with 0%Q.
    cbn [last]. lra.
  - inversion H as [|? ? Hab Hrest]; subst.
    inversion Hab as [|? ? Hb _]; subst.
    specialize (IH b Hrest).
    assert (El : last (b :: L) a = last L b).
    { destruct L as [|c L]; [reflexivity|].
      change (last (c :: L) a = last (c :: L) b). apply last_default. }
    rewrite El. cbn [List.length]. rewrite Nat2Z.inj_succ.
    unfold Z.succ. rewrite inject_Z_plus.
    change (inject_Z 1) with 1%Q.
    set (q := inject_Z (Z.of_nat (List.length L))) in *.
    nra.
Qed.

(** X17.  The publications on the accelerometer topic are as many as
    the instants counted for the run, and under a clock that never goes
    back any [n + 1] of them in a row take at least [n] intervals: the
    topic never carries more than one message per interval on
    average. *)
Theorem publish_rate_bounded cfg reads st :
  MIC_PUBLISH_EVERY_N cfg <> 0 ->
  monotonic (map fst reads) = true ->
  let instants := accel_publish_instants cfg reads st in
  let st' := exec (main_loop cfg reads) st in
  Z.of_nat (List.length instants) = accel (stats st') - accel (stats st) /\
  (forall first rest,
     instants = first :: rest ->
     (inject_Z (Z.of_nat (List.length rest)) * ACCEL_PUBLISH_INTERVAL cfg
      <= last rest first - first)%Q).
Proof.
  intros HN Hm instants st'. split.
  - subst instants st'. clear Hm. revert st.
    induction reads as [|[now r] rest IH]; intros st; [cbn; lia|].
    cbn [accel_publish_instants]. unfold exec. rewrite main_loop_cons.
    pose proof (main_loop_body_gate cfg now r st) as G. cbn zeta in G.
    pose proof (main_loop_body_returns cfg now r st (or_intror HN)) as Hr.
    unfold exec, result in G, Hr.
    destruct (main_loop_body cfg now r st) as [[[]|e] s1];
      cbn [fst snd] in *; [|discriminate].
    rewrite length_app, Nat2Z.inj_add, IH. unfold exec.
    destruct G as [(Ha & _)|(Ha & _)]; rewrite Ha.
    + rewrite Z.eqb_refl. cbn [List.length]. lia.
    + destruct (Z.eqb_spec (accel (stats st)) (accel (stats st) + 1)); [lia|].
      cbn [List.length]. lia.
  - intros first rest E. apply spaced_span.
    rewrite <- E. now apply accel_publish_instants_apart.
Qed.

Lemma publish_rate_bounded_witness :
  let reads :=
    [(1%Q, ReadText "A,1,2,3"); (1005 # 1000, ReadText "A,4,5,6");
     (101 # 100, ReadText "A,7,8,9"); (2%Q, ReadText "A,0,0,0")] in
  let instants := accel_publish_instants config reads Gateway.init in
  let st' := exec (main_loop config reads) Gateway.init in
  Z.of_nat (List.length instants) = accel (stats st') - accel (stats Gateway.init)
  /\ instants = [1; 101 # 100; 2]%Q.
Proof.
  intros reads instants st'.
  assert (HN : MIC_PUBLISH_EVERY_N config <> 0) by discriminate.
  split; [|reflexivity].
  exact (proj1 (publish_rate_bounded config reads Gateway.init HN eq_refl)).
Defined.

End GatewayRunProperties.

(* ===================================================================== *)
(** ** Port detection and the e-mail report *)
(* ===================================================================== *)

Section Detection.

Lemma upper_lower_char c :
  PyCase.upper_char (PyCase.lower_char c) = PyCase.upper_char c.
Proof.
  destruct c as [[] [] [] [] [] [] [] []]; vm_compute; reflexivity.
Qed.

Lemma upper_lower s : PyCase.upper (PyCase.lower s) = PyCase.upper s.
Proof.
  induction s as [|c s IH]; [reflexivity|].
  cbn [PyCase.lower PyCase.upper]. now rewrite upper_lower_char, IH.
Qed.

Lemma find_sensortile_step port rest :
  Logger.find_sensortile (port :: rest) =
  if matches_sensortile port then Some (device port)
  else Logger.find_sensortile rest.
Proof. reflexivity. Qed.

(** X18.  Both programs detect the port the same way: the answer is the
    device name of the first port, in the order the system lists them,
    that passes the test, and no port at all exactly when none passes
    (so also for an empty list). *)
Theorem finders_return_first_match ports :
  Gateway.find_sensortile_port ports = Logger.find_sensortile ports /\
  (forall d,
     Logger.find_sensortile ports = Some d <->
     exists before port after,
       ports = (before ++ port :: after)%list /\
       forallb (fun p => negb (matches_sensortile p)) before = true /\
       matches_sensortile port = true /\
       d = device port) /\
  (Logger.find_sensortile ports = None <->
   forallb (fun p => negb (matches_sensortile p)) ports = true).
Proof.
  split; [|split].
  - induction ports as [|port rest IH]; [reflexivity|].
    cbn [Gateway.find_sensortile_port]. rewrite find_sensortile_step, IH.
    reflexivity.
  - induction ports as [|port rest IH]; intros d.
    + split; [discriminate|].
      intros (before & p & after & E & _). now destruct before.
    + rewrite find_sensortile_step.
      destruct (matches_sensortile port) eqn:Hm.
      * split.
        -- intros [= <-]. exists [], port, rest. now repeat split.
        -- intros (before & p & after & E & Hb & Hp & ->).
           destruct before as [|q before].
           ++ now injection E as <- _.
           ++ injection E as <- _. cbn [forallb] in Hb.
              rewrite Hm in Hb. discriminate.
      * rewrite IH. split.
        -- intros (before & p & after & -> & Hb & Hp & ->).
           exists (port :: before), p, after.
           cbn [forallb]. rewrite Hm. now repeat split.
        -- intros (before & p & after & E & Hb & Hp & ->).
           destruct before as [|q before].
           ++ injection E as <- _. rewrite Hm in Hp. discriminate.
           ++ injection E as <- ->. cbn [forallb] in Hb.
              apply andb_prop in Hb as [_ Hb].
              now exists before, p, after.
  - induction ports as [|port rest IH]; [now split|].
    rewrite find_sensortile_step. cbn [forallb].
    destruct (matches_sensortile port); cbn [negb andb].
    + split; discriminate.
    + exact IH.
Qed.

Lemma finders_return_first_match_witness :
  let ports :=
    [{| device := "/dev/ttyS0"; description := "n/a" |};
     {| device := "/dev/ttyACM0";
        description := "Stm32 Virtual ComPort" |};
     {| device := "/dev/cu.usbmodem1"; description := "n/a" |}] in
  Gateway.find_sensortile_port ports = Some "/dev/ttyACM0" /\
  Logger.find_sensortile ports = Some "/dev/ttyACM0" /\
  Logger.find_sensortile [] = None.
Proof.
  intros ports.
  destruct (finders_return_first_match ports) as (H1 & H2 & _).
  assert (E : Logger.find_sensortile ports = Some "/dev/ttyACM0").
  { apply H2.
    exists [{| device := "/dev/ttyS0"; description := "n/a" |}],
           {| device := "/dev/ttyACM0";
              description := "Stm32 Virtual ComPort" |},
           [{| device := "/dev/cu.usbmodem1"; description := "n/a" |}].
    repeat split. }
  split; [now rewrite H1|]. split; [exact E|].
  now apply (proj2 (proj2 (proj2 (finders_return_first_match [])))).
Defined.

(** X19.  For descriptions made of ASCII characters the letter case
    plays no part in the detection: with every description put in lower
    case the same port is found.  (Beyond ASCII the two case mappings
    are not each other's inverse, and the statement is not made.) *)
Theorem detection_ignores_description_case ports :
  forallb (fun p => ascii_text (description p)) ports = true ->
  Logger.find_sensortile (map lower_description ports) =
  Logger.find_sensortile ports.
Proof.
  intros _.
  induction ports as [|port rest IH]; [reflexivity|].
  cbn [map]. rewrite !find_sensortile_step, IH.
  unfold matches_sensortile, lower_description. cbn [device description].
  now rewrite upper_lower.
Qed.

Lemma detection_ignores_description_case_witness :
  let ports :=
    [{| device := "/dev/ttyS0"; description := "n/a" |};
     {| device := "/dev/ttyACM0"; description := "Stm32 Virtual ComPort" |}] in
  Logger.find_sensortile (map lower_description ports) = Some "/dev/ttyACM0" /\
  Logger.find_sensortile ports = Some "/dev/ttyACM0".
Proof.
  intros ports.
  pose proof (detection_ignores_description_case ports eq_refl) as H.
  split; [|reflexivity]. rewrite H. reflexivity.
Defined.

End Detection.

Section Report.

Import Logger.

(** X20.  The e-mail report, on what the scheduler thread reads.  A
    report is sent only with e-mail enabled, a recipient listed, the
    mode read set and the transport going through; it gives the mode
    read in upper case and the sample count read.  While the mode reads
    [None] the attempt is skipped or fails, the exception of
    [None.upper()] being caught.  A wake-up sends something only if
    [running] reads true, and once [run] has ended, from whatever state
    and however the loop ended, it reads false: nothing is sent. *)
Theorem report_needs_detected_mode cfg csv_exists transport_ok
    mode_now count_now :
  (forall r,
     send_email cfg csv_exists transport_ok mode_now count_now = Sent r ->
     EMAIL_ENABLED cfg = true /\
     RECIPIENT_EMAILS cfg <> [] /\
     transport_ok = true /\
     msg_to r = RECIPIENT_EMAILS cfg /\
     body_samples r = count_now /\
     exists m, mode_now = Some m /\ body_mode r = mode_upper m)
  /\
  (mode_now = None ->
   send_email cfg csv_exists transport_ok mode_now count_now = NotAttempted \/
   send_email cfg csv_exists transport_ok mode_now count_now = Failed)
  /\
  (forall running_now r,
     email_tick cfg csv_exists transport_ok running_now mode_now count_now
     = Sent r ->
     running_now = true)
  /\
  (forall reads st,
     email_tick cfg csv_exists transport_ok
                (running (exec (run reads) st)) mode_now count_now
     = NotAttempted).
Proof.
  split; [|split; [|split]].
  - intros r. unfold send_email.
    destruct (EMAIL_ENABLED cfg); [|discriminate].
    destruct (RECIPIENT_EMAILS cfg) as [|a l] eqn:Er; [discriminate|].
    cbn [negb orb].
    destruct mode_now as [m|]; [|discriminate].
    destruct transport_ok; [|discriminate].
    intros [= <-]. cbn [msg_to body_mode body_samples].
    split; [reflexivity|]. split; [discriminate|]. split; [reflexivity|].
    split; [reflexivity|]. split; [reflexivity|]. now exists m.
  - intros ->. unfold send_email.
    destruct (negb (EMAIL_ENABLED cfg) || _); [now left|now right].
  - intros running_now r. unfold email_tick.
    destruct running_now; [reflexivity|discriminate].
  - intros reads st. unfold email_tick.
    now rewrite (proj1 (run_ends reads st)).
Qed.

Lemma report_needs_detected_mode_witness :
  let cfg := {| EMAIL_ENABLED := true; SENDER_EMAIL := "from@example.org";
                RECIPIENT_EMAILS := ["to@example.org"];
                CSV_FILENAME := "sensor_data.csv" |} in
  (exists r, send_email cfg true true (Some reduced) 2 = Sent r /\
             body_samples r = 2 /\ body_mode r = "REDUCED") /\
  send_email cfg true true None 0 = Failed /\
  email_tick cfg true true
             (running (exec (run [("t0", ReadText "1,2,3,4,5")]) init))
             (Some reduced) 1 = NotAttempted.
Proof.
  intros cfg.
  destruct (report_needs_detected_mode cfg true true (Some reduced) 2)
    as (H1 & _ & _ & _).
  destruct (report_needs_detected_mode cfg true true (Some reduced) 1)
    as (_ & _ & _ & H4).
  split; [|split].
  - eexists. split; [reflexivity|].
    destruct (H1 _ eq_refl) as (_ & _ & _ & _ & Hn & _).
    split; [exact Hn|reflexivity].
  - reflexivity.
  - apply H4.
Defined.

End Report.

(* ===================================================================== *)
(** ** Fields beyond the digit limit of [int] *)
(* ===================================================================== *)

(** 4300 digits parse, one more does not, and leading zeros count. *)
Example int_digit_limit :
  PyText.int (string_of_list_ascii (repeat "9"%char (N.to_nat 4300))) <> None /\
  PyText.int (string_of_list_ascii (repeat "9"%char (N.to_nat 4301))) = None /\
  PyText.int (string_of_list_ascii (repeat "0"%char (N.to_nat 4301))) = None.
Proof.
  split; [|split].
  - vm_compute. discriminate.
  - vm_compute. reflexivity.
  - vm_compute. reflexivity.
Qed.

(** The logger drops a five-field line with such a field. *)
Example logger_drops_overlong_field :
  Logger.process_line "t0"
    (string_of_list_ascii (repeat "9"%char (N.to_nat 4301)) ++ ",2,3,4,5")
    Logger.init
  = (Return tt, Logger.init).
Proof. vm_compute. reflexivity. Qed.

(** The gateway counts an [A] line with such a field as an error. *)
Example gateway_counts_overlong_field :
  Gateway.main_line Gateway.config 1
    ("A," ++ string_of_list_ascii (repeat "9"%char (N.to_nat 4301)) ++ ",2,3")
    Gateway.init
  = (Return tt, Gateway.errored Gateway.init).
Proof. vm_compute. reflexivity. Qed.
